(** * Cypherlink: the encrypted object-storage gateway of [server.js]

    A shallow embedding of the server's cipher codec ([encryptFile],
    [decryptFile]), of its audit recorder ([logActivity]) and of its four
    file routes, together with the properties the specification states
    about them.

    Layout:
    - [Buffer]s and byte arithmetic;
    - the parts of Node's [crypto] module the server calls: the AES-256
      block function, and counter mode behind the [createCipheriv] /
      [update] / [final] interface;
    - the external services (S3, DynamoDB, CloudWatch Logs) and the local
      sources of identifiers, time and randomness, as commands of a small
      free monad with a big-step and a small-step reading;
    - the server's functions, transcribed line by line ([Section Server]);
    - their properties ([Section Properties]);
    - the model against published test vectors, and the server on
      concrete requests. *)

From Stdlib Require Import NArith ZArith List Bool Lia.
From Stdlib Require Import Strings.Byte.
From stdpp Require Import gmap strings list fin_maps pretty.

Local Open Scope string_scope.
Local Open Scope list_scope.

(* ===================================================================== *)
(** ** Buffers *)
(* ===================================================================== *)

(** A Node [Buffer] is a finite sequence of octets. *)
Abbreviation Buffer := (list byte).

(** Bitwise exclusive or of two octets, bit by bit. *)
Definition byte_xor (a b : byte) : byte :=
  let '(a0, (a1, (a2, (a3, (a4, (a5, (a6, a7))))))) := Byte.to_bits a in
  let '(b0, (b1, (b2, (b3, (b4, (b5, (b6, b7))))))) := Byte.to_bits b in
  Byte.of_bits (xorb a0 b0, (xorb a1 b1, (xorb a2 b2, (xorb a3 b3,
               (xorb a4 b4, (xorb a5 b5, (xorb a6 b6, xorb a7 b7))))))).

(** The octet with value [n mod 256]. *)
Definition byte_of_N (n : N) : byte :=
  match Byte.of_N (n mod 256) with
  | Some b => b
  | None => x00
  end.

(** Big-endian reading of a buffer as a number, and the [n]-octet
    big-endian writing of a number (high bits beyond [8 * n] dropped). *)
Definition be_to_N (l : Buffer) : N :=
  fold_left (fun acc b => (acc * 256 + Byte.to_N b)%N) l 0%N.

Fixpoint N_to_be (n : nat) (v : N) : Buffer :=
  match n with
  | O => []
  | S n' => N_to_be n' (v / 256)%N ++ [byte_of_N v]
  end.

(* ===================================================================== *)
(** ** AES-256 (FIPS 197), the block function behind ['aes-256-ctr'] *)
(* ===================================================================== *)

Module AES.

Local Open Scope N_scope.

(** Multiplication by x in GF(2^8) modulo x^8 + x^4 + x^3 + x + 1. *)
Definition xtime (a : N) : N :=
  let s := N.land (N.shiftl a 1) 255 in
  if N.testbit a 7 then N.lxor s 27 else s.

Fixpoint gmul_aux (n : nat) (a b : N) : N :=
  match n with
  | O => 0
  | S n' => N.lxor (if N.odd b then a else 0)
                   (gmul_aux n' (xtime a) (N.div2 b))
  end.

Definition gmul (a b : N) : N := gmul_aux 8 a b.

Fixpoint gpow (a : N) (n : nat) : N :=
  match n with
  | O => 1
  | S n' => gmul a (gpow a n')
  end.

(** The multiplicative inverse, with 0 sent to 0. *)
Definition ginv (a : N) : N := gpow a 254.

Definition rotl8 (b : N) (k : N) : N :=
  N.land (N.lor (N.shiftl b k) (N.shiftr b (8 - k))) 255.

Definition sbox_of (x : N) : N :=
  let i := ginv x in
  N.lxor (N.lxor (N.lxor (N.lxor (N.lxor i (rotl8 i 1)) (rotl8 i 2))
                         (rotl8 i 3)) (rotl8 i 4)) 99.

Definition sbox : list N :=
  Eval vm_compute in map (fun i => sbox_of (N.of_nat i)) (seq 0 256).

Definition sub_byte (b : N) : N := nth (N.to_nat b) sbox 0.

Definition sub_bytes (st : list N) : list N := map sub_byte st.

(** The state is kept in input order, column by column: the octet of
    row [r] and column [c] sits at index [r + 4 * c]. *)
Definition shift_rows (st : list N) : list N :=
  map (fun i => nth (i mod 4 + 4 * ((i / 4 + i mod 4) mod 4))%nat st 0)
      (seq 0 16).

Fixpoint mix_columns (st : list N) : list N :=
  match st with
  | a0 :: a1 :: a2 :: a3 :: rest =>
      N.lxor (N.lxor (N.lxor (gmul 2 a0) (gmul 3 a1)) a2) a3
      :: N.lxor (N.lxor (N.lxor a0 (gmul 2 a1)) (gmul 3 a2)) a3
      :: N.lxor (N.lxor (N.lxor a0 a1) (gmul 2 a2)) (gmul 3 a3)
      :: N.lxor (N.lxor (N.lxor (gmul 3 a0) a1) a2) (gmul 2 a3)
      :: mix_columns rest
  | _ => []
  end.

Fixpoint xor_list (a b : list N) : list N :=
  match a, b with
  | x :: a', y :: b' => N.lxor x y :: xor_list a' b'
  | _, _ => []
  end.

Definition rot_word (w : list N) : list N :=
  match w with
  | a :: r => r ++ [a]
  | [] => []
  end.

Fixpoint rcon (j : nat) : N :=
  match j with
  | O => 0
  | S O => 1
  | S j' => xtime (rcon j')
  end.

Fixpoint words (l : list N) : list (list N) :=
  match l with
  | a :: b :: c :: d :: rest => [a; b; c; d] :: words rest
  | _ => []
  end.

(** Key schedule for Nk = 8: word [i] from words [i - 1] and [i - 8]. *)
Fixpoint expand (fuel i : nat) (w : list (list N)) : list (list N) :=
  match fuel with
  | O => w
  | S f =>
      let prev := nth (i - 1) w [] in
      let temp :=
        if (i mod 8 =? 0)%nat
        then xor_list (map sub_byte (rot_word prev)) [rcon (i / 8); 0; 0; 0]
        else if (i mod 8 =? 4)%nat then map sub_byte prev
        else prev in
      expand f (S i) (w ++ [xor_list (nth (i - 8) w []) temp])
  end.

Definition key_expansion (key : list N) : list N :=
  concat (expand 52 8 (words key)).

Definition round_key (w : list N) (r : nat) : list N :=
  firstn 16 (skipn (16 * r) w).

Fixpoint rounds (w : list N) (n r : nat) (st : list N) : list N :=
  match n with
  | O => st
  | S n' =>
      rounds w n' (S r)
        (xor_list (mix_columns (shift_rows (sub_bytes st))) (round_key w r))
  end.

(** Nr = 14 rounds: an initial key addition, 13 full rounds, and a last
    round without the column mix. *)
Definition cipher (key block : list N) : list N :=
  let w := key_expansion key in
  let st := rounds w 13 1 (xor_list block (round_key w 0)) in
  xor_list (shift_rows (sub_bytes st)) (round_key w 14).

Definition encrypt_block (key block : Buffer) : Buffer :=
  map byte_of_N (cipher (map Byte.to_N key) (map Byte.to_N block)).

End AES.

(** Hexadecimal literals for test vectors. *)
Definition hex_digit (c : Ascii.ascii) : N :=
  let n := Ascii.N_of_ascii c in
  if (48 <=? n)%N && (n <=? 57)%N then (n - 48)%N
  else if (97 <=? n)%N && (n <=? 102)%N then (n - 87)%N
  else 0%N.

Fixpoint hex (s : string) : Buffer :=
  match s with
  | String a (String b rest) =>
      byte_of_N (16 * hex_digit a + hex_digit b) :: hex rest
  | _ => []
  end.

(* ===================================================================== *)
(** ** JavaScript values the server handles *)
(* ===================================================================== *)

(** An [Error] object: its class name and its [message]. *)
Record JsError := { err_name : string; err_message : string }.

(** The outcome of evaluating an expression or awaiting a promise: a value,
    or a thrown exception (a rejected promise). *)
Inductive completion (A : Type) : Type :=
| Normal (a : A)
| Thrown (e : JsError).
Arguments Normal {A} a.
Arguments Thrown {A} e.

(** The JSON-shaped values the server builds and sends. *)
#[local] Unset Elimination Schemes.
Inductive Json : Type :=
| JNull
| JBool (b : bool)
| JNum (n : Z)
| JStr (s : string)
| JArr (items : list Json)
| JObj (fields : list (string * Json)).
#[local] Set Elimination Schemes.

(** Truthiness of an optional string ([undefined] and [''] are falsy), and
    the [||] operator with a string default. *)
Definition truthy (v : option string) : bool :=
  match v with
  | Some s => negb (String.eqb s EmptyString)
  | None => false
  end.

Definition js_or (v : option string) (d : string) : string :=
  match v with
  | Some s => if String.eqb s EmptyString then d else s
  | None => d
  end.

(* ===================================================================== *)
(** ** Node's [crypto]: counter mode over AES-256 *)
(* ===================================================================== *)

(** Octet number [p] of the key stream: octet [p mod 16] of the encryption
    of the counter block, which starts at [iv] and is incremented as a
    128-bit big-endian number once per block. *)
Definition keystream_byte (key iv : Buffer) (p : nat) : byte :=
  let counter := ((be_to_N iv + N.of_nat (p / 16)) mod 2 ^ 128)%N in
  nth (p mod 16) (AES.encrypt_block key (N_to_be 16 counter)) x00.

Fixpoint ctr_xor (key iv : Buffer) (p : nat) (data : Buffer) : Buffer :=
  match data with
  | [] => []
  | b :: rest =>
      byte_xor b (keystream_byte key iv p) :: ctr_xor key iv (S p) rest
  end.

(** A [Cipher] / [Decipher] object: key, initial counter block and the
    number of octets already processed.  The JavaScript object is mutated
    by [update]; here [update] returns the new object. *)
Record Cipher := {
  cipher_key : Buffer;
  cipher_iv : Buffer;
  cipher_pos : nat
}.

Definition ERR_CRYPTO_UNKNOWN_CIPHER : JsError :=
  {| err_name := "TypeError"; err_message := "Unknown cipher" |}.
Definition ERR_CRYPTO_INVALID_IV : JsError :=
  {| err_name := "TypeError"; err_message := "Invalid initialization vector" |}.
Definition ERR_CRYPTO_INVALID_KEYLEN : JsError :=
  {| err_name := "RangeError"; err_message := "Invalid key length" |}.

(** [crypto.createCipheriv]: only ['aes-256-ctr'] is known to this model;
    the initialization vector must have the block length and the key 32
    octets, otherwise the call throws. *)
Definition createCipheriv (algorithm : string) (key iv : Buffer)
  : completion Cipher :=
  if String.eqb algorithm "aes-256-ctr" then
    if (length iv =? 16)%nat then
      if (length key =? 32)%nat then
        Normal {| cipher_key := key; cipher_iv := iv; cipher_pos := 0 |}
      else Thrown ERR_CRYPTO_INVALID_KEYLEN
    else Thrown ERR_CRYPTO_INVALID_IV
  else Thrown ERR_CRYPTO_UNKNOWN_CIPHER.

(** [crypto.createDecipheriv]: in counter mode the same object. *)
Definition createDecipheriv (algorithm : string) (key iv : Buffer)
  : completion Cipher :=
  createCipheriv algorithm key iv.

Definition cipher_update (c : Cipher) (data : Buffer) : Buffer * Cipher :=
  (ctr_xor (cipher_key c) (cipher_iv c) (cipher_pos c) data,
   {| cipher_key := cipher_key c; cipher_iv := cipher_iv c;
      cipher_pos := cipher_pos c + length data |}).

(** A stream mode holds nothing back: [final] returns the empty buffer. *)
Definition cipher_final (c : Cipher) : Buffer := [].

(* ===================================================================== *)
(** ** The stores and the services *)
(* ===================================================================== *)

Definition BUCKET_NAME : string := "your-unique-secure-bucket-name".
Definition LOG_GROUP : string := "/aws/file-storage-app".
Definition LOG_STREAM : string := "application-logs".

(** An item of the [FileMetadata] table. *)
Record FileRecord := {
  fileId : string;
  fileName : string;
  contentType : string;
  size : nat;
  uploadedAt : string;
  encrypted : bool
}.

(** An item of the [ActivityLogs] table. *)
Record ActivityLogEntry := {
  logId : string;
  timestamp : string;
  action : string;
  details : string
}.

(** An object of the bucket. *)
Record S3Object := {
  Body : Buffer;
  ContentType : string;
  Metadata : list (string * string)
}.

(** An event of the CloudWatch log stream. *)
Record LogEvent := {
  ev_message : string;
  ev_timestamp : Z
}.

(** What the server asks of the outside: the calls to the three AWS
    clients, and the local sources of identifiers, time and randomness.
    DynamoDB calls carry the table in their name; S3 calls address
    [BUCKET_NAME]. *)
Inductive Cmd : Type :=
| S3_upload (Key : string) (obj : S3Object)
| S3_getObject (Key : string)
| S3_deleteObject (Key : string)
| Dynamo_put_FileMetadata (Item : FileRecord)
| Dynamo_get_FileMetadata (Key : string)
| Dynamo_scan_FileMetadata
| Dynamo_delete_FileMetadata (Key : string)
| Dynamo_put_ActivityLogs (Item : ActivityLogEntry)
| Dynamo_scan_ActivityLogs
| CloudWatch_putLogEvents (logGroupName logStreamName : string)
                          (logEvents : list LogEvent)
| Uuidv4
| Date_toISOString
| Date_now
| RandomBytes (n : nat)
| Console_error (label : string) (err : JsError).

(** The type of what each call resolves to. *)
Definition Res (c : Cmd) : Type :=
  match c with
  | S3_upload _ _ => unit
  | S3_getObject _ => S3Object
  | S3_deleteObject _ => unit
  | Dynamo_put_FileMetadata _ => unit
  | Dynamo_get_FileMetadata _ => option FileRecord
  | Dynamo_scan_FileMetadata => list FileRecord
  | Dynamo_delete_FileMetadata _ => unit
  | Dynamo_put_ActivityLogs _ => unit
  | Dynamo_scan_ActivityLogs => list ActivityLogEntry
  | CloudWatch_putLogEvents _ _ _ => unit
  | Uuidv4 => string
  | Date_toISOString => string
  | Date_now => Z
  | RandomBytes _ => Buffer
  | Console_error _ _ => unit
  end.

(** The calls that leave the process (and may be rejected). *)
Definition is_service (c : Cmd) : bool :=
  match c with
  | Uuidv4 | Date_toISOString | Date_now | RandomBytes _
  | Console_error _ _ => false
  | _ => true
  end.

(** The two writes of the audit recorder. *)
Definition is_audit (c : Cmd) : bool :=
  match c with
  | CloudWatch_putLogEvents _ _ _ | Dynamo_put_ActivityLogs _ => true
  | _ => false
  end.

(** Accesses to the blob store and to the file-metadata table. *)
Definition is_store_access (c : Cmd) : bool :=
  match c with
  | S3_upload _ _ | S3_getObject _ | S3_deleteObject _
  | Dynamo_put_FileMetadata _ | Dynamo_get_FileMetadata _
  | Dynamo_scan_FileMetadata | Dynamo_delete_FileMetadata _ => true
  | _ => false
  end.

(** The state outside the handlers: the bucket, the two tables, the log
    stream, the process's error output, the service calls issued so far
    (oldest first) and the number of commands executed. *)
Record World := {
  bucket : gmap string S3Object;
  FileMetadata : gmap string FileRecord;
  ActivityLogs : gmap string ActivityLogEntry;
  log_stream : list LogEvent;
  console : list (string * JsError);
  calls : list Cmd;
  ticks : nat
}.

(** Everything the handlers do not decide: which service call is rejected
    (and with what error) at which moment, which identifiers [uuidv4]
    draws, what the clock shows, and the octets [randomBytes] draws. *)
Record Env := {
  fault : nat -> Cmd -> option JsError;
  uuid_at : nat -> string;
  iso_at : nat -> string;
  now_at : nat -> Z;
  entropy : nat -> nat -> byte
}.

Definition NoSuchKey : JsError :=
  {| err_name := "NoSuchKey";
     err_message := "The specified key does not exist." |}.

(** Bookkeeping common to every command: one more command executed, and
    a service call entered in the call log. *)
Definition note_call (c : Cmd) (w : World) : World :=
  {| bucket := bucket w; FileMetadata := FileMetadata w;
     ActivityLogs := ActivityLogs w; log_stream := log_stream w;
     console := console w;
     calls := if is_service c then calls w ++ [c] else calls w;
     ticks := S (ticks w) |}.

Definition set_bucket (b : gmap string S3Object) (w : World) : World :=
  {| bucket := b; FileMetadata := FileMetadata w;
     ActivityLogs := ActivityLogs w; log_stream := log_stream w;
     console := console w; calls := calls w; ticks := ticks w |}.

Definition set_FileMetadata (m : gmap string FileRecord) (w : World) : World :=
  {| bucket := bucket w; FileMetadata := m;
     ActivityLogs := ActivityLogs w; log_stream := log_stream w;
     console := console w; calls := calls w; ticks := ticks w |}.

Definition set_ActivityLogs (m : gmap string ActivityLogEntry) (w : World)
  : World :=
  {| bucket := bucket w; FileMetadata := FileMetadata w;
     ActivityLogs := m; log_stream := log_stream w;
     console := console w; calls := calls w; ticks := ticks w |}.

Definition set_log_stream (l : list LogEvent) (w : World) : World :=
  {| bucket := bucket w; FileMetadata := FileMetadata w;
     ActivityLogs := ActivityLogs w; log_stream := l;
     console := console w; calls := calls w; ticks := ticks w |}.

Definition set_console (l : list (string * JsError)) (w : World) : World :=
  {| bucket := bucket w; FileMetadata := FileMetadata w;
     ActivityLogs := ActivityLogs w; log_stream := log_stream w;
     console := l; calls := calls w; ticks := ticks w |}.

(** The [n] octets [randomBytes] draws at moment [t]. *)
Definition random_octets (env : Env) (t n : nat) : Buffer :=
  map (entropy env t) (seq 0 n).

(** What a command does when it is not rejected.  [t] is the moment of the
    call.  Reading a missing object is an error of S3 itself; deleting a
    missing object or item is not; a scan returns every item. *)
Definition perform (env : Env) (t : nat) (c : Cmd) (w : World)
  : completion (Res c) * World :=
  match c return completion (Res c) * World with
  | S3_upload k obj => (Normal tt, set_bucket (<[k := obj]> (bucket w)) w)
  | S3_getObject k =>
      match bucket w !! k with
      | Some obj => (Normal obj, w)
      | None => (Thrown NoSuchKey, w)
      end
  | S3_deleteObject k => (Normal tt, set_bucket (delete k (bucket w)) w)
  | Dynamo_put_FileMetadata item =>
      (Normal tt,
       set_FileMetadata (<[fileId item := item]> (FileMetadata w)) w)
  | Dynamo_get_FileMetadata k => (Normal (FileMetadata w !! k), w)
  | Dynamo_scan_FileMetadata =>
      (Normal (snd <$> map_to_list (FileMetadata w)), w)
  | Dynamo_delete_FileMetadata k =>
      (Normal tt, set_FileMetadata (delete k (FileMetadata w)) w)
  | Dynamo_put_ActivityLogs item =>
      (Normal tt,
       set_ActivityLogs (<[logId item := item]> (ActivityLogs w)) w)
  | Dynamo_scan_ActivityLogs =>
      (Normal (snd <$> map_to_list (ActivityLogs w)), w)
  | CloudWatch_putLogEvents _ _ evs =>
      (Normal tt, set_log_stream (log_stream w ++ evs) w)
  | Uuidv4 => (Normal (uuid_at env t), w)
  | Date_toISOString => (Normal (iso_at env t), w)
  | Date_now => (Normal (now_at env t), w)
  | RandomBytes n => (Normal (random_octets env t n), w)
  | Console_error label err =>
      (Normal tt, set_console (console w ++ [(label, err)]) w)
  end.

(** One command against the world: a service call the environment rejects
    throws and leaves the stores as they are. *)
Definition exec (env : Env) (c : Cmd) (w : World)
  : completion (Res c) * World :=
  let t := ticks w in
  let w1 := note_call c w in
  if is_service c then
    match fault env t c with
    | Some e => (Thrown e, w1)
    | None => perform env t c w1
    end
  else perform env t c w1.

(* ===================================================================== *)
(** ** Handler programs *)
(* ===================================================================== *)

(** A handler is a finite tree: it returns, throws, or issues a command
    and continues with the command's completion.  An [await] of a rejected
    promise throws at the point of the [await]; [try_catch] is the
    [try { ... } catch (e) { ... }] statement. *)
Inductive prog (R : Type) : Type :=
| Ret (r : R)
| Throw (e : JsError)
| Do (c : Cmd) (k : completion (Res c) -> prog R).
Arguments Ret {R} r.
Arguments Throw {R} e.
Arguments Do {R} c k.

Fixpoint bind {A B : Type} (p : prog A) (f : A -> prog B) : prog B :=
  match p with
  | Ret a => f a
  | Throw e => Throw e
  | Do c k => Do c (fun o => bind (k o) f)
  end.

Fixpoint try_catch {A : Type} (p : prog A) (h : JsError -> prog A) : prog A :=
  match p with
  | Ret a => Ret a
  | Throw e => h e
  | Do c k => Do c (fun o => try_catch (k o) h)
  end.

Definition lift {A : Type} (o : completion A) : prog A :=
  match o with
  | Normal a => Ret a
  | Thrown e => Throw e
  end.

(** [await client.call(...).promise()], and the synchronous local calls. *)
Definition call (c : Cmd) : prog (Res c) := Do c lift.

Declare Scope prog_scope.
Delimit Scope prog_scope with prog.
Bind Scope prog_scope with prog.
Notation "x <- p ; q" := (bind p (fun x => q))
  (at level 20, p at level 100, q at level 200, right associativity,
   only parsing) : prog_scope.
Notation "'_' <- p ; q" := (bind p (fun _ => q))
  (at level 20, p at level 100, q at level 200, right associativity,
   only parsing) : prog_scope.

(** Big-step reading: run a program to its completion. *)
Fixpoint run {R : Type} (env : Env) (p : prog R) (w : World)
  : completion R * World :=
  match p with
  | Ret r => (Normal r, w)
  | Throw e => (Thrown e, w)
  | Do c k => let '(o, w') := exec env c w in run env (k o) w'
  end.

(** Small-step reading: one command at a time. *)
Definition step {R : Type} (env : Env) (cfg : prog R * World)
  : option (prog R * World) :=
  match fst cfg with
  | Do c k => let '(o, w') := exec env c (snd cfg) in Some (k o, w')
  | _ => None
  end.

Inductive reachable {R : Type} (env : Env)
  : prog R * World -> prog R * World -> Prop :=
| reach_here cfg : reachable env cfg cfg
| reach_step cfg cfg' cfg'' :
    step env cfg = Some cfg' -> reachable env cfg' cfg'' ->
    reachable env cfg cfg''.

(** The worlds a run passes through, first to last. *)
Fixpoint worlds {R : Type} (env : Env) (p : prog R) (w : World)
  : list World :=
  match p with
  | Do c k => let '(o, w') := exec env c w in w :: worlds env (k o) w'
  | _ => [w]
  end.

(* ===================================================================== *)
(** ** Requests and responses *)
(* ===================================================================== *)

(** What a handler has sent when it is done. *)
Inductive Payload : Type :=
| SentJson (j : Json)
| SentBuffer (b : Buffer).

Record Response := {
  statusCode : nat;
  headers : list (string * string);
  payload : Payload
}.

(** [res.status(code).json(j)]. *)
Definition res_status_json (code : nat) (j : Json) : Response :=
  {| statusCode := code; headers := []; payload := SentJson j |}.

(** The file part of a multipart form, and the object multer's memory
    storage makes of it: [size] is the length of the buffered content. *)
Record FilePart := {
  part_filename : string;
  part_mimetype : string;
  part_data : Buffer
}.

Record MulterFile := {
  originalname : string;
  mimetype : string;
  buffer : Buffer;
  file_size : nat
}.

Definition memoryStorage (p : FilePart) : MulterFile :=
  {| originalname := part_filename p;
     mimetype := part_mimetype p;
     buffer := part_data p;
     file_size := length (part_data p) |}.

(** [POST /api/upload]: the form as sent, and the request as the handler
    sees it after [upload.single('file')].  A field of the form is a
    string when present. *)
Record UploadForm := {
  form_file : option FilePart;
  form_encryptionKey : option string
}.

Record UploadRequest := {
  req_file : option MulterFile;
  req_body_encryptionKey : option string
}.

Definition upload_single (f : UploadForm) : UploadRequest :=
  {| req_file := memoryStorage <$> form_file f;
     req_body_encryptionKey := form_encryptionKey f |}.

(** [GET /api/download/:fileId?encryptionKey=...], with a string-valued
    query parameter when present. *)
Record DownloadRequest := {
  req_params_fileId : string;
  req_query_encryptionKey : option string
}.

(** The string behind a query parameter known to be truthy. *)
Definition string_value (v : option string) : string :=
  match v with
  | Some s => s
  | None => "undefined"
  end.

Definition dquote : string := String (Ascii.ascii_of_nat 34) EmptyString.

Definition TypeError_undefined (prop : string) : JsError :=
  {| err_name := "TypeError";
     err_message :=
       "Cannot read properties of undefined (reading '" +:+ prop +:+ "')" |}.

Definition ERR_INVALID_CHAR (name : string) : JsError :=
  {| err_name := "TypeError";
     err_message :=
       "Invalid character in header content [" +:+ dquote +:+ name
       +:+ dquote +:+ "]" |}.

Definition FileRecord_json (r : FileRecord) : Json :=
  JObj [("fileId", JStr (fileId r)); ("fileName", JStr (fileName r));
        ("contentType", JStr (contentType r));
        ("size", JNum (Z.of_nat (size r)));
        ("uploadedAt", JStr (uploadedAt r));
        ("encrypted", JBool (encrypted r))].

Definition ActivityLogEntry_json (l : ActivityLogEntry) : Json :=
  JObj [("logId", JStr (logId l)); ("timestamp", JStr (timestamp l));
        ("action", JStr (action l)); ("details", JStr (details l))].

(** The three client-error and success bodies the properties name. *)
Definition key_required : Response :=
  res_status_json 400
    (JObj [("success", JBool false);
           ("message", JStr "Encryption key is required")]).

Definition file_not_found : Response :=
  res_status_json 404
    (JObj [("success", JBool false); ("message", JStr "File not found")]).

Definition upload_succeeded (fileId : string) : Response :=
  res_status_json 200
    (JObj [("success", JBool true); ("fileId", JStr fileId);
           ("message", JStr "File uploaded successfully")]).

Definition files_listed (Items : list FileRecord) : Response :=
  res_status_json 200
    (JObj [("success", JBool true);
           ("files", JArr (FileRecord_json <$> Items))]).

(* ===================================================================== *)
(** ** Comparing runs and states *)
(* ===================================================================== *)

(** The same environment with another pattern of rejected calls. *)
Definition with_fault (f : nat -> Cmd -> option JsError) (env : Env) : Env :=
  {| fault := f; uuid_at := uuid_at env; iso_at := iso_at env;
     now_at := now_at env; entropy := entropy env |}.

(** Two worlds with the same bucket and the same file-metadata table. *)
Definition stores_eq (w1 w2 : World) : Prop :=
  bucket w1 = bucket w2 /\ FileMetadata w1 = FileMetadata w2.

(** ... that are, moreover, at the same moment. *)
Definition in_step (w1 w2 : World) : Prop :=
  stores_eq w1 w2 /\ ticks w1 = ticks w2.

(** Two runs with the same completion that leave the same bucket and the
    same file-metadata table. *)
Definition same_outcome {R : Type} (r1 r2 : completion R * World) : Prop :=
  fst r1 = fst r2 /\ stores_eq (snd r1) (snd r2).

(** Commands whose completion is decided by the environment, the moment,
    the bucket and the file-metadata table. *)
Definition plain (c : Cmd) : bool :=
  is_store_access c || negb (is_service c).

(** A program whose runs under two environments agree from worlds in
    step, respectively from worlds with the same stores. *)
Definition in_step_rel {R : Type} (env env' : Env) (p : prog R) : Prop :=
  forall w1 w2, in_step w1 w2 -> same_outcome (run env p w1) (run env' p w2).

Definition loose_rel {R : Type} (env env' : Env) (p : prog R) : Prop :=
  forall w1 w2, stores_eq w1 w2 -> same_outcome (run env p w1) (run env' p w2).

(** No metadata record for [id] without a blob under [files/id]. *)
Definition consistent_at (id : string) (w : World) : Prop :=
  is_Some (FileMetadata w !! id) -> is_Some (bucket w !! ("files/" +:+ id)).

(** Every metadata write issued since [w0] finds its blob in the bucket. *)
Definition blob_first (w0 w : World) : Prop :=
  exists l, calls w = calls w0 ++ l
            /\ forall Item, Dynamo_put_FileMetadata Item ∈ l ->
                            is_Some (bucket w !! ("files/" +:+ fileId Item)).

(** No store access since [w0]. *)
Definition no_store_access (w0 w : World) : Prop :=
  exists l, calls w = calls w0 ++ l
            /\ Forall (fun c => is_store_access c = false) l.

(** The invariant of an upload started in [w0], at identifier [id]. *)
Definition upload_inv (id : string) (w0 w : World) : Prop :=
  consistent_at id w /\ blob_first w0 w.

(** What a command needs of the world it is issued in to keep that
    invariant: no blob is deleted, and a metadata record is written only
    once its blob is in the bucket. *)
Definition guard (c : Cmd) (w : World) : Prop :=
  match c with
  | S3_deleteObject _ => False
  | Dynamo_put_FileMetadata Item =>
      is_Some (bucket w !! ("files/" +:+ fileId Item))
  | _ => True
  end.

(** A program all of whose commands are issued under their guard. *)
Fixpoint safe {R : Type} (env : Env) (p : prog R) (w : World) : Prop :=
  match p with
  | Do c k => guard c w /\ (let '(o, w') := exec env c w in safe env (k o) w')
  | _ => True
  end.

(* ===================================================================== *)
(** ** The runtime library *)
(* ===================================================================== *)

(** Library functions the server calls and this development does not
    transcribe.  [scrypt_octet password salt keylen i] is octet [i] of
    what Node's scrypt, with its default cost parameters, derives when
    asked for [keylen] octets; [encodeURIComponent] throws a [URIError]
    on a lone surrogate; [validHeaderValue] is the check [res.setHeader]
    applies to a header value before accepting it. *)
Class Runtime := {
  scrypt_octet : string -> string -> nat -> nat -> byte;
  JSON_stringify : Json -> string;
  encodeURIComponent : string -> completion string;
  validHeaderValue : string -> bool
}.

(* ===================================================================== *)
(** ** Concrete instances *)
(* ===================================================================== *)

(** Instances of the library functions and of the environment, used to
    evaluate the server on concrete requests.  [sample_scrypt_octet] is
    not scrypt: it repeats nothing of RFC 7914 and only has its shape. *)
Definition sample_scrypt_octet (password salt : string) (keylen i : nat)
  : byte :=
  nth i (String.list_byte_of_string (password +:+ salt)) x00.

Fixpoint sample_stringify (j : Json) : string :=
  match j with
  | JNull => "null"
  | JBool b => if b then "true" else "false"
  | JNum n => pretty n
  | JStr s => dquote +:+ s +:+ dquote
  | JArr items =>
      "[" +:+ (fix go (l : list Json) : string :=
                 match l with
                 | [] => EmptyString
                 | [x] => sample_stringify x
                 | x :: r => sample_stringify x +:+ "," +:+ go r
                 end) items +:+ "]"
  | JObj fields =>
      "{" +:+ (fix go (l : list (string * Json)) : string :=
                 match l with
                 | [] => EmptyString
                 | [(k, x)] => dquote +:+ k +:+ dquote +:+ ":"
                               +:+ sample_stringify x
                 | (k, x) :: r => dquote +:+ k +:+ dquote +:+ ":"
                                  +:+ sample_stringify x +:+ "," +:+ go r
                 end) fields +:+ "}"
  end.

(** The identity, as [encodeURIComponent] is on unreserved characters. *)
Definition sample_encodeURIComponent (s : string) : completion string :=
  Normal s.

Definition sample_validHeaderValue (s : string) : bool := true.

Definition sample_runtime : Runtime :=
  {| scrypt_octet := sample_scrypt_octet;
     JSON_stringify := sample_stringify;
     encodeURIComponent := sample_encodeURIComponent;
     validHeaderValue := sample_validHeaderValue |}.

Definition ServiceUnavailable : JsError :=
  {| err_name := "ServiceUnavailable";
     err_message := "Service Unavailable" |}.

(** An environment in which no call is rejected. *)
Definition sample_env : Env :=
  {| fault := fun _ _ => None;
     uuid_at := fun t => "id-" +:+ pretty t;
     iso_at := fun t => "2024-01-01T00:00:00." +:+ pretty t +:+ "Z";
     now_at := fun t => (1704067200000 + Z.of_nat t)%Z;
     entropy := fun t i => byte_of_N (N.of_nat (7 * i + t)) |}.

(** An outage of both audit sinks, and an outage of the metadata table. *)
Definition audit_outage (t : nat) (c : Cmd) : option JsError :=
  if is_audit c then Some ServiceUnavailable else None.

Definition metadata_outage (t : nat) (c : Cmd) : option JsError :=
  match c with
  | Dynamo_put_FileMetadata _ => Some ServiceUnavailable
  | _ => None
  end.

Definition empty_world : World :=
  {| bucket := ∅; FileMetadata := ∅; ActivityLogs := ∅; log_stream := [];
     console := []; calls := []; ticks := 0 |}.

Definition sample_form (key : option string) : UploadForm :=
  {| form_file := Some {| part_filename := "report.pdf";
                          part_mimetype := "application/pdf";
                          part_data := hex "010203" |};
     form_encryptionKey := key |}.

(* ===================================================================== *)
(** ** The server *)
(* ===================================================================== *)

Section Server.

Context `{rt : Runtime}.

Local Open Scope prog_scope.

(** [crypto.scryptSync(password, salt, keylen)]: a buffer of [keylen]
    octets. *)
Definition scryptSync (password salt : string) (keylen : nat) : Buffer :=
  map (scrypt_octet password salt keylen) (seq 0 keylen).

(** [res.setHeader(name, value)] on the headers set so far. *)
Definition setHeader (hs : list (string * string)) (name value : string)
  : completion (list (string * string)) :=
  if validHeaderValue value then Normal (hs ++ [(name, value)])
  else Thrown (ERR_INVALID_CHAR name).

(** Helper function to log activity. *)
Definition logActivity (action : string) (details : Json) : prog unit :=
  timestamp <- call Date_toISOString ;
  logId <- call Uuidv4 ;
  (* Log to CloudWatch *)
  _ <- try_catch
         (let message :=
            JSON_stringify (JObj [("action", JStr action);
                                  ("details", details);
                                  ("timestamp", JStr timestamp)]) in
          now <- call Date_now ;
          call (CloudWatch_putLogEvents LOG_GROUP LOG_STREAM
                  [{| ev_message := message; ev_timestamp := now |}]))
         (fun err => call (Console_error "CloudWatch logging error:" err)) ;
  (* Log to DynamoDB *)
  try_catch
    (call (Dynamo_put_ActivityLogs
             {| logId := logId; timestamp := timestamp; action := action;
                details := JSON_stringify details |}))
    (fun err => call (Console_error "DynamoDB logging error:" err)).

(** Encrypt file. *)
Definition encryptFile (buffer : Buffer) (password : string) : prog Buffer :=
  let algorithm := "aes-256-ctr" in
  let key := scryptSync password "salt" 32 in
  iv <- call (RandomBytes 16) ;
  cipher <- lift (createCipheriv algorithm key iv) ;
  let '(updated, cipher) := cipher_update cipher buffer in
  let encryptedBuffer := concat [iv; updated; cipher_final cipher] in
  Ret encryptedBuffer.

(** Decrypt file. *)
Definition decryptFile (encryptedBuffer : Buffer) (password : string)
  : completion Buffer :=
  let algorithm := "aes-256-ctr" in
  let key := scryptSync password "salt" 32 in
  let iv := take 16 encryptedBuffer in
  let encryptedContent := drop 16 encryptedBuffer in
  match createDecipheriv algorithm key iv with
  | Thrown e => Thrown e
  | Normal decipher =>
      let '(updated, decipher) := cipher_update decipher encryptedContent in
      Normal (concat [updated; cipher_final decipher])
  end.

(** Upload file endpoint. *)
Definition upload_handler (req : UploadRequest) : prog Response :=
  try_catch
    (let file := req_file req in
     let encryptionKey :=
       js_or (req_body_encryptionKey req) "default-password" in
     fileId <- call Uuidv4 ;
     match file with
     | None => Throw (TypeError_undefined "buffer")
     | Some file =>
         encryptedBuffer <- encryptFile (buffer file) encryptionKey ;
         (* Upload to S3 *)
         original_name <- lift (encodeURIComponent (originalname file)) ;
         _ <- call (S3_upload ("files/" +:+ fileId)
                      {| Body := encryptedBuffer;
                         ContentType := mimetype file;
                         Metadata := [("original-name", original_name)] |}) ;
         (* Save metadata to DynamoDB *)
         uploadedAt <- call Date_toISOString ;
         _ <- call (Dynamo_put_FileMetadata
                      {| fileId := fileId;
                         fileName := originalname file;
                         contentType := mimetype file;
                         size := file_size file;
                         uploadedAt := uploadedAt;
                         encrypted := true |}) ;
         (* Log the activity *)
         _ <- logActivity "FILE_UPLOAD"
                (JObj [("fileId", JStr fileId);
                       ("fileName", JStr (originalname file));
                       ("size", JNum (Z.of_nat (file_size file)))]) ;
         Ret (res_status_json 200
                (JObj [("success", JBool true);
                       ("fileId", JStr fileId);
                       ("message", JStr "File uploaded successfully")]))
     end)
    (fun error =>
       _ <- call (Console_error "Error uploading file:" error) ;
       Ret (res_status_json 500
              (JObj [("success", JBool false);
                     ("message", JStr "Error uploading file");
                     ("error", JStr (err_message error))]))).

(** Download file endpoint. *)
Definition download_handler (req : DownloadRequest) : prog Response :=
  try_catch
    (let fileId := req_params_fileId req in
     let encryptionKey := req_query_encryptionKey req in
     if negb (truthy encryptionKey) then
       Ret (res_status_json 400
              (JObj [("success", JBool false);
                     ("message", JStr "Encryption key is required")]))
     else
       (* Get file metadata *)
       metadata <- call (Dynamo_get_FileMetadata fileId) ;
       match metadata with
       | None =>
           Ret (res_status_json 404
                  (JObj [("success", JBool false);
                         ("message", JStr "File not found")]))
       | Some Item =>
           (* Get file from S3 *)
           s3Object <- call (S3_getObject ("files/" +:+ fileId)) ;
           (* Decrypt file *)
           decryptedBuffer <-
             lift (decryptFile (Body s3Object)
                               (string_value encryptionKey)) ;
           (* Log activity *)
           _ <- logActivity "FILE_DOWNLOAD"
                  (JObj [("fileId", JStr fileId);
                         ("fileName", JStr (fileName Item))]) ;
           (* Set headers and send file *)
           hs <- lift (setHeader [] "Content-Type" (contentType Item)) ;
           hs <- lift (setHeader hs "Content-Disposition"
                         ("attachment; filename=" +:+ dquote +:+
                          fileName Item +:+ dquote)) ;
           Ret {| statusCode := 200; headers := hs;
                  payload := SentBuffer decryptedBuffer |}
       end)
    (fun error =>
       _ <- call (Console_error "Error downloading file:" error) ;
       Ret (res_status_json 500
              (JObj [("success", JBool false);
                     ("message", JStr "Error downloading file");
                     ("error", JStr (err_message error))]))).

(** List files endpoint. *)
Definition list_handler : prog Response :=
  try_catch
    (Items <- call Dynamo_scan_FileMetadata ;
     _ <- logActivity "LIST_FILES"
            (JObj [("count", JNum (Z.of_nat (length Items)))]) ;
     Ret (res_status_json 200
            (JObj [("success", JBool true);
                   ("files", JArr (FileRecord_json <$> Items))])))
    (fun error =>
       _ <- call (Console_error "Error listing files:" error) ;
       Ret (res_status_json 500
              (JObj [("success", JBool false);
                     ("message", JStr "Error listing files");
                     ("error", JStr (err_message error))]))).

(** Delete file endpoint. *)
Definition delete_handler (fileId : string) : prog Response :=
  try_catch
    ((* Get file metadata first *)
     metadata <- call (Dynamo_get_FileMetadata fileId) ;
     match metadata with
     | None =>
         Ret (res_status_json 404
                (JObj [("success", JBool false);
                       ("message", JStr "File not found")]))
     | Some Item =>
         (* Delete from S3 *)
         _ <- call (S3_deleteObject ("files/" +:+ fileId)) ;
         (* Delete metadata from DynamoDB *)
         _ <- call (Dynamo_delete_FileMetadata fileId) ;
         (* Log activity *)
         _ <- logActivity "FILE_DELETE"
                (JObj [("fileId", JStr fileId);
                       ("fileName", JStr (fileName Item))]) ;
         Ret (res_status_json 200
                (JObj [("success", JBool true);
                       ("message", JStr "File deleted successfully")]))
     end)
    (fun error =>
       _ <- call (Console_error "Error deleting file:" error) ;
       Ret (res_status_json 500
              (JObj [("success", JBool false);
                     ("message", JStr "Error deleting file");
                     ("error", JStr (err_message error))]))).

(** Get logs endpoint. *)
Definition logs_handler : prog Response :=
  try_catch
    (Items <- call Dynamo_scan_ActivityLogs ;
     Ret (res_status_json 200
            (JObj [("success", JBool true);
                   ("logs", JArr (ActivityLogEntry_json <$> Items))])))
    (fun error =>
       _ <- call (Console_error "Error fetching logs:" error) ;
       Ret (res_status_json 500
              (JObj [("success", JBool false);
                     ("message", JStr "Error fetching logs");
                     ("error", JStr (err_message error))]))).

(** The record and the object an upload writes. *)
Definition record_of (env : Env) (w : World) (file : MulterFile)
  : FileRecord :=
  {| fileId := uuid_at env (ticks w);
     fileName := originalname file;
     contentType := mimetype file;
     size := file_size file;
     uploadedAt := iso_at env (3 + ticks w);
     encrypted := true |}.

Definition blob_of (env : Env) (w : World) (file : MulterFile)
           (K : string) : Buffer :=
  let iv := random_octets env (S (ticks w)) 16 in
  iv ++ ctr_xor (scryptSync K "salt" 32) iv 0 (buffer file).

(** The route [POST /api/upload] behind its multer middleware. *)
Definition post_api_upload (f : UploadForm) : prog Response :=
  upload_handler (upload_single f).

End Server.

(* ===================================================================== *)
(** ** Response shapes and predicates on programs and worlds *)
(* ===================================================================== *)

(** The 500 body of a route: what failed, and the message of the error
    that was caught. *)
Definition server_error (what : string) (e : JsError) : Response :=
  res_status_json 500
    (JObj [("success", JBool false); ("message", JStr what);
           ("error", JStr (err_message e))]).

Definition delete_succeeded : Response :=
  res_status_json 200
    (JObj [("success", JBool true);
           ("message", JStr "File deleted successfully")]).

Definition logs_listed (Items : list ActivityLogEntry) : Response :=
  res_status_json 200
    (JObj [("success", JBool true);
           ("logs", JArr (ActivityLogEntry_json <$> Items))]).







(** Every value a program returns satisfies [S]. *)
Fixpoint returns_in {R : Type} (S : R -> Prop) (p : prog R) : Prop :=
  match p with
  | Ret r => S r
  | Throw _ => True
  | Do c k => forall o, returns_in S (k o)
  end.

(** Every command a program issues satisfies [P]. *)
Fixpoint only {R : Type} (P : Cmd -> bool) (p : prog R) : Prop :=
  match p with
  | Do c k => P c = true /\ forall o, only P (k o)
  | _ => True
  end.

(** Commands that write to the bucket or to the file-metadata table, and
    their complement. *)
Definition writes_store (c : Cmd) : bool :=
  match c with
  | S3_upload _ _ | S3_deleteObject _
  | Dynamo_put_FileMetadata _ | Dynamo_delete_FileMetadata _ => true
  | _ => false
  end.

Definition reads_only (c : Cmd) : bool := negb (writes_store c).

(** Commands that leave the audit trail alone. *)
Definition no_audit (c : Cmd) : bool := negb (is_audit c).

(** Two worlds with the same audit trail: table and log stream. *)
Definition audit_eq (w1 w2 : World) : Prop :=
  ActivityLogs w1 = ActivityLogs w2 /\ log_stream w1 = log_stream w2.

(** No blob under [files/id] without a metadata record for [id]. *)
Definition no_orphan_at (id : string) (w : World) : Prop :=
  is_Some (bucket w !! ("files/" +:+ id)) -> is_Some (FileMetadata w !! id).

(** What a command needs of the world it is issued in to keep that: no
    blob is written, and a record is deleted only once its blob is gone. *)
Definition guard_delete (c : Cmd) (w : World) : Prop :=
  match c with
  | S3_upload _ _ => False
  | Dynamo_delete_FileMetadata k => bucket w !! ("files/" +:+ k) = None
  | _ => True
  end.

(** A program all of whose commands are issued under the guard [g]. *)
Fixpoint safe_with {R : Type} (g : Cmd -> World -> Prop) (env : Env)
         (p : prog R) (w : World) : Prop :=
  match p with
  | Do c k =>
      g c w /\ (let '(o, w') := exec env c w in safe_with g env (k o) w')
  | _ => True
  end.


(** What the audit recorder, entered at moment [t], sends to the log
    stream and puts in the [ActivityLogs] table. *)
Definition audit_event `{Runtime} (env : Env) (t : nat) (action : string)
           (details : Json) : LogEvent :=
  {| ev_message :=
       JSON_stringify (JObj [("action", JStr action); ("details", details);
                             ("timestamp", JStr (iso_at env t))]);
     ev_timestamp := now_at env (2 + t) |}.

Definition audit_entry `{Runtime} (env : Env) (t : nat) (action : string)
           (details : Json) : ActivityLogEntry :=
  {| logId := uuid_at env (1 + t);
     timestamp := iso_at env t;
     action := action;
     details := JSON_stringify details |}.

(** Every delete of a metadata record issued since [w0] finds the bucket
    without the blob of that record. *)
Definition record_last (w0 w : World) : Prop :=
  exists l, calls w = calls w0 ++ l
            /\ forall k, Dynamo_delete_FileMetadata k ∈ l ->
                         bucket w !! ("files/" +:+ k) = None.

(** Octet-wise exclusive or of two buffers, cut at the shorter. *)
Definition xor_buffers (a b : Buffer) : Buffer := zip_with byte_xor a b.

(** The world after the upload of the sample form under ['secret'] into
    the empty world, and variations of it: without the blob, and with a
    blob cut to two octets. *)
Definition stored_world : World :=
  Eval vm_compute in
    snd (run sample_env
             (post_api_upload (rt := sample_runtime)
                              (sample_form (Some "secret")))
             empty_world).

Definition blobless_world : World :=
  set_bucket (delete "files/id-0" (bucket stored_world)) stored_world.

Definition truncated_world : World :=
  set_bucket (<["files/id-0" := {| Body := hex "0102";
                                   ContentType := "application/pdf";
                                   Metadata := [] |}]>
                (bucket stored_world))
             stored_world.

(** An outage of the deletes of the metadata table. *)
Definition record_delete_outage (t : nat) (c : Cmd) : option JsError :=
  match c with
  | Dynamo_delete_FileMetadata _ => Some ServiceUnavailable
  | _ => None
  end.

(** A runtime whose responses refuse every header value. *)
Definition strict_runtime : Runtime :=
  {| scrypt_octet := sample_scrypt_octet;
     JSON_stringify := sample_stringify;
     encodeURIComponent := sample_encodeURIComponent;
     validHeaderValue := fun _ => false |}.

Definition sample_part : FilePart :=
  {| part_filename := "report.pdf";
     part_mimetype := "application/pdf";
     part_data := hex "010203" |}.

(* ===================================================================== *)
(** ** Properties *)
(* ===================================================================== *)

Section Properties.

Context `{rt : Runtime}.

(** Symbolic execution of a run: unfold the interpreter on the next
    command, then split on whatever the environment or a library
    function decides. *)
Ltac run_cbn :=
  cbn [run worlds bind try_catch call lift exec is_service perform
       bucket FileMetadata ActivityLogs log_stream console calls ticks
       note_call set_bucket set_FileMetadata set_ActivityLogs
       set_log_stream set_console fst snd
       with_fault fault uuid_at iso_at now_at entropy
       cipher_update cipher_final cipher_key cipher_iv cipher_pos
       req_file req_body_encryptionKey req_params_fileId
       req_query_encryptionKey upload_single form_file
       form_encryptionKey fmap option_fmap option_map].

Ltac run_case :=
  match goal with
  | |- context [fault ?e ?t ?c] => destruct (fault e t c) eqn:?
  | |- context [createCipheriv ?a ?k ?i] =>
      destruct (createCipheriv a k i) eqn:?
  | |- context [decryptFile ?b ?k] => destruct (decryptFile b k) eqn:?
  | |- context [encodeURIComponent ?s] =>
      destruct (encodeURIComponent s) eqn:?
  | |- context [setHeader ?h ?n ?v] => destruct (setHeader h n v) eqn:?
  end.

Ltac run_lookup :=
  match goal with
  | |- context [@lookup _ _ (gmap string S3Object) _ ?k ?m] =>
      destruct (@lookup _ _ (gmap string S3Object) _ k m) eqn:?
  | |- context [@lookup _ _ (gmap string FileRecord) _ ?k ?m] =>
      destruct (@lookup _ _ (gmap string FileRecord) _ k m) eqn:?
  end.

Ltac run_faults := run_cbn; repeat (run_case; run_cbn).

(** *** Octets and the key stream *)

Lemma byte_xor_involutive (a b : byte) : byte_xor (byte_xor a b) b = a.
Proof.
  unfold byte_xor.
  pose proof (Byte.of_bits_to_bits a) as Ha.
  destruct (Byte.to_bits a) as (a0 & a1 & a2 & a3 & a4 & a5 & a6 & a7).
  destruct (Byte.to_bits b) as (b0 & b1 & b2 & b3 & b4 & b5 & b6 & b7).
  rewrite Byte.to_bits_of_bits, <- Ha.
  f_equal.
  now rewrite !xorb_assoc, !xorb_nilpotent, !xorb_false_r.
Qed.

Lemma ctr_xor_length (key iv : Buffer) (p : nat) (data : Buffer) :
  length (ctr_xor key iv p data) = length data.
Proof.
  revert p. induction data as [|b data IH]; intros p; cbn [ctr_xor length].
  - reflexivity.
  - now rewrite IH.
Qed.

Lemma ctr_xor_involutive (key iv : Buffer) (p : nat) (data : Buffer) :
  ctr_xor key iv p (ctr_xor key iv p data) = data.
Proof.
  revert p. induction data as [|b data IH]; intros p; cbn [ctr_xor].
  - reflexivity.
  - now rewrite byte_xor_involutive, IH.
Qed.

Lemma createCipheriv_ok (key iv : Buffer) :
  length key = 32 -> length iv = 16 ->
  createCipheriv "aes-256-ctr" key iv
  = Normal {| cipher_key := key; cipher_iv := iv; cipher_pos := 0 |}.
Proof.
  intros Hk Hi. unfold createCipheriv. now rewrite Hk, Hi.
Qed.

Lemma createCipheriv_short_iv (key iv : Buffer) :
  length iv <> 16 ->
  createCipheriv "aes-256-ctr" key iv = Thrown ERR_CRYPTO_INVALID_IV.
Proof.
  intros Hi. unfold createCipheriv.
  apply Nat.eqb_neq in Hi. now rewrite Hi.
Qed.

Lemma scryptSync_length (password salt : string) (keylen : nat) :
  length (scryptSync password salt keylen) = keylen.
Proof. unfold scryptSync. now rewrite length_map, length_seq. Qed.

Lemma random_octets_length (env : Env) (t n : nat) :
  length (random_octets env t n) = n.
Proof. unfold random_octets. now rewrite length_map, length_seq. Qed.

(** *** Running programs *)

Lemma run_bind {A B : Type} (env : Env) (p : prog A) (f : A -> prog B)
      (w : World) :
  run env (bind p f) w
  = match run env p w with
    | (Normal a, w') => run env (f a) w'
    | (Thrown e, w') => (Thrown e, w')
    end.
Proof.
  revert w. induction p as [a|e|c k IH]; intros w; cbn [bind run].
  - reflexivity.
  - reflexivity.
  - destruct (exec env c w) as [o w']. apply IH.
Qed.

Lemma run_try_catch {A : Type} (env : Env) (p : prog A)
      (h : JsError -> prog A) (w : World) :
  run env (try_catch p h) w
  = match run env p w with
    | (Normal a, w') => (Normal a, w')
    | (Thrown e, w') => run env (h e) w'
    end.
Proof.
  revert w. induction p as [a|e|c k IH]; intros w; cbn [try_catch run].
  - reflexivity.
  - reflexivity.
  - destruct (exec env c w) as [o w']. apply IH.
Qed.

Lemma run_lift {A : Type} (env : Env) (o : completion A) (w : World) :
  run env (lift o) w = (o, w).
Proof. now destruct o. Qed.

Lemma run_call (env : Env) (c : Cmd) (w : World) :
  run env (call c) w = exec env c w.
Proof.
  unfold call. cbn [run]. destruct (exec env c w) as [o w'].
  apply run_lift.
Qed.

(** The worlds of a run end with the world the run ends in. *)
Lemma worlds_last {R : Type} (env : Env) (p : prog R) (w : World) :
  snd (run env p w) ∈ worlds env p w.
Proof.
  revert w. induction p as [a|e|c k IH]; intros w; cbn [run worlds snd].
  - apply list_elem_of_here.
  - apply list_elem_of_here.
  - destruct (exec env c w) as [o w']. apply list_elem_of_further, IH.
Qed.

(** Every state a handler can be in is one of the worlds of its run. *)
Lemma reachable_worlds {R : Type} (env : Env) (cfg cfg' : prog R * World) :
  reachable env cfg cfg' -> snd cfg' ∈ worlds env (fst cfg) (snd cfg).
Proof.
  induction 1 as [[p w]|[p w] [p' w'] cfg'' Hstep _ IH]; cbn [fst snd] in *.
  - destruct p; cbn [worlds]; try apply list_elem_of_here.
    destruct (exec env c w). apply list_elem_of_here.
  - destruct p as [a|e|c k]; try discriminate Hstep.
    unfold step in Hstep. cbn [fst snd] in Hstep. cbn [worlds].
    destruct (exec env c w) as [o w1]. injection Hstep as <- <-.
    now apply list_elem_of_further.
Qed.

(** *** The cipher codec *)

(** [encryptFile] draws sixteen octets, and returns them followed by the
    plaintext under the key stream of the derived key. *)
Lemma encryptFile_run (env : Env) (w : World) (P : Buffer) (K : string) :
  let iv := random_octets env (ticks w) 16 in
  run env (encryptFile P K) w
  = (Normal (iv ++ ctr_xor (scryptSync K "salt" 32) iv 0 P),
     note_call (RandomBytes 16) w).
Proof.
  intros iv. unfold encryptFile.
  rewrite run_bind, run_call. cbn [exec is_service perform].
  fold iv. rewrite run_bind, run_lift.
  rewrite createCipheriv_ok
    by (apply scryptSync_length || apply random_octets_length).
  cbn [cipher_update cipher_key cipher_iv cipher_pos cipher_final run concat].
  now rewrite !app_nil_r.
Qed.

Lemma decryptFile_long (B : Buffer) (K : string) :
  16 <= length B ->
  decryptFile B K
  = Normal (ctr_xor (scryptSync K "salt" 32) (take 16 B) 0 (drop 16 B)).
Proof.
  intros HB. unfold decryptFile, createDecipheriv.
  rewrite createCipheriv_ok
    by (apply scryptSync_length || (rewrite length_take; lia)).
  cbn [cipher_update cipher_key cipher_iv cipher_pos cipher_final concat].
  now rewrite !app_nil_r.
Qed.

Lemma decryptFile_short (B : Buffer) (K : string) :
  length B < 16 -> decryptFile B K = Thrown ERR_CRYPTO_INVALID_IV.
Proof.
  intros HB. unfold decryptFile, createDecipheriv.
  rewrite createCipheriv_short_iv by (rewrite length_take; lia).
  reflexivity.
Qed.

Lemma decryptFile_of_encrypted (K : string) (iv P : Buffer) :
  length iv = 16 ->
  decryptFile (iv ++ ctr_xor (scryptSync K "salt" 32) iv 0 P) K = Normal P.
Proof.
  intros Hiv. rewrite decryptFile_long by (rewrite length_app; lia).
  rewrite <- Hiv at 2 4.
  now rewrite take_app_length, drop_app_length, ctr_xor_involutive.
Qed.

(** C1. Round trip: whatever the plaintext [P] and the passphrase [K],
    and whatever the sixteen octets drawn, [encryptFile P K] returns a
    blob made of those sixteen octets followed by [P] under the
    AES-256-CTR key stream of the key [scryptSync K 'salt' 32], and
    [decryptFile] of that blob under the same [K] returns exactly [P]. *)
Theorem decrypt_encrypt_roundtrip (env : Env) (w : World) (P : Buffer)
        (K : string) :
  exists (iv blob : Buffer) (w' : World),
    run env (encryptFile P K) w = (Normal blob, w')
    /\ iv = random_octets env (ticks w) 16
    /\ length iv = 16
    /\ blob = iv ++ ctr_xor (scryptSync K "salt" 32) iv 0 P
    /\ decryptFile blob K = Normal P.
Proof.
  eexists _, _, _. split; [apply encryptFile_run|].
  split; [reflexivity|]. split; [apply random_octets_length|].
  split; [reflexivity|].
  apply decryptFile_of_encrypted, random_octets_length.
Qed.

(** C2. [decryptFile] throws exactly on blobs shorter than the sixteen
    octets of the initialization vector: on such a blob it throws (the
    error of [createDecipheriv] on a short vector) whatever the
    passphrase, and on a blob of sixteen octets or more it returns a
    buffer whatever the passphrase. *)
Theorem decryptFile_throws_iff_short (B : Buffer) (K : string) :
  (length B < 16 -> decryptFile B K = Thrown ERR_CRYPTO_INVALID_IV)
  /\ (16 <= length B -> exists out : Buffer, decryptFile B K = Normal out)
  /\ ((exists e, decryptFile B K = Thrown e) <-> length B < 16).
Proof.
  split; [apply decryptFile_short|].
  split; [intros HB; eexists; now apply decryptFile_long|].
  split.
  - intros [e He]. destruct (Nat.lt_ge_cases (length B) 16) as [Hlt|Hge].
    + exact Hlt.
    + rewrite decryptFile_long in He by exact Hge. discriminate.
  - intros HB. eexists. now apply decryptFile_short.
Qed.

(** C10. The codec is length-transparent: [encryptFile P K] returns
    [length P + 16] octets; [decryptFile B K] on a blob of at least
    sixteen octets returns [length B - 16] octets; a blob of exactly
    sixteen octets decrypts to the empty buffer. *)
Theorem codec_length_transparent (env : Env) (w : World) (P B : Buffer)
        (K : string) :
  (exists blob w', run env (encryptFile P K) w = (Normal blob, w')
                   /\ length blob = length P + 16)
  /\ (16 <= length B ->
      exists out, decryptFile B K = Normal out
                  /\ length out = length B - 16)
  /\ (length B = 16 -> decryptFile B K = Normal []).
Proof.
  split; [|split].
  - eexists _, _. split; [apply encryptFile_run|].
    rewrite length_app, ctr_xor_length, random_octets_length. lia.
  - intros HB. eexists. split; [now apply decryptFile_long|].
    now rewrite ctr_xor_length, length_drop.
  - intros HB. rewrite decryptFile_long by lia.
    rewrite drop_ge by lia. reflexivity.
Qed.

(** *** The audit recorder *)

(** [logActivity] returns normally whatever the environment rejects,
    and leaves the bucket and the file-metadata table alone. *)
Lemma logActivity_run (env : Env) (w : World) (a : string) (d : Json) :
  exists w',
    run env (logActivity a d) w = (Normal tt, w') /\ stores_eq w' w.
Proof.
  unfold logActivity, stores_eq. run_faults.
  all: eexists; split; [reflexivity|]; split; reflexivity.
Qed.

(** It issues its two writes, both, whatever becomes of the first. *)
Lemma logActivity_calls (env : Env) (w : World) (a : string) (d : Json) :
  exists c1 c2,
    calls (snd (run env (logActivity a d) w)) = calls w ++ [c1; c2]
    /\ is_audit c1 = true /\ is_audit c2 = true.
Proof.
  unfold logActivity. run_faults.
  all: eexists _, _; rewrite <- app_assoc; repeat split.
Qed.

Section Contained.

(** Two environments that differ at most in whether they reject the
    writes of the audit recorder. *)
Variable env : Env.
Variable f' : nat -> Cmd -> option JsError.
Hypothesis agree :
  forall t c, is_audit c = false -> f' t c = fault env t c.

Lemma exec_plain (c : Cmd) (w1 w2 : World) :
  plain c = true -> in_step w1 w2 ->
  fst (exec env c w1) = fst (exec (with_fault f' env) c w2)
  /\ in_step (snd (exec env c w1)) (snd (exec (with_fault f' env) c w2)).
Proof.
  intros Hc [[Hb Hm] Ht]. unfold in_step, stores_eq.
  destruct c; try discriminate Hc; unfold exec;
    cbn [is_service with_fault fault]; rewrite ?agree by reflexivity;
    rewrite <- ?Ht;
    try (match goal with
         | |- context [fault ?e ?t ?c] => destruct (fault e t c)
         end);
    cbn [perform note_call bucket FileMetadata ticks set_bucket
         set_FileMetadata set_console fst snd uuid_at iso_at now_at
         entropy with_fault];
    rewrite <- ?Hb, <- ?Hm, <- ?Ht;
    try (match goal with
         | |- context [bucket w1 !! ?k] => destruct (bucket w1 !! k)
         end);
    cbn [fst snd bucket FileMetadata ticks note_call];
    rewrite <- ?Hb, <- ?Hm, <- ?Ht; auto.
Qed.

Lemma in_step_ret {R : Type} (r : R) :
  in_step_rel env (with_fault f' env) (Ret r).
Proof. intros w1 w2 [H _]. now split. Qed.

Lemma in_step_throw {R : Type} (e : JsError) :
  in_step_rel env (with_fault f' env) (@Throw R e).
Proof. intros w1 w2 [H _]. now split. Qed.

Lemma loose_ret {R : Type} (r : R) :
  loose_rel env (with_fault f' env) (Ret r).
Proof. intros w1 w2 H. now split. Qed.

Lemma loose_throw {R : Type} (e : JsError) :
  loose_rel env (with_fault f' env) (@Throw R e).
Proof. intros w1 w2 H. now split. Qed.

Lemma in_step_do {R : Type} (c : Cmd) (k : completion (Res c) -> prog R) :
  plain c = true ->
  (forall o, in_step_rel env (with_fault f' env) (k o)) ->
  in_step_rel env (with_fault f' env) (Do c k).
Proof.
  intros Hc Hk w1 w2 Hw. cbn [run].
  destruct (exec_plain c w1 w2 Hc Hw) as [Ho Hw'].
  destruct (exec env c w1) as [o1 w1'],
           (exec (with_fault f' env) c w2) as [o2 w2'].
  cbn [fst snd] in Ho, Hw'. subst o2. now apply Hk.
Qed.

Lemma loose_console {R : Type} (label : string) (e : JsError)
      (k : completion unit -> prog R) :
  loose_rel env (with_fault f' env) (k (Normal tt)) ->
  loose_rel env (with_fault f' env) (Do (Console_error label e) k).
Proof.
  intros Hk w1 w2 [Hb Hm]. cbn [run exec is_service perform].
  apply Hk. now split.
Qed.

(** After the audit recorder the two runs may be at different moments:
    what follows it must not depend on the moment. *)
Lemma in_step_log {R : Type} (a : string) (d : Json) (f : unit -> prog R) :
  loose_rel env (with_fault f' env) (f tt) ->
  in_step_rel env (with_fault f' env) (bind (logActivity a d) f).
Proof.
  intros Hf w1 w2 [[Hb Hm] _]. rewrite !run_bind.
  destruct (logActivity_run env w1 a d) as (w1' & -> & Hb1 & Hm1).
  destruct (logActivity_run (with_fault f' env) w2 a d)
    as (w2' & -> & Hb2 & Hm2).
  apply Hf. split; congruence.
Qed.

Lemma in_step_try_catch {R : Type} (p : prog R) (h : JsError -> prog R) :
  in_step_rel env (with_fault f' env) p ->
  (forall e, loose_rel env (with_fault f' env) (h e)) ->
  in_step_rel env (with_fault f' env) (try_catch p h).
Proof.
  intros Hp Hh w1 w2 Hw. rewrite !run_try_catch.
  destruct (Hp w1 w2 Hw) as [Ho Hs].
  destruct (run env p w1) as [o1 w1'],
           (run (with_fault f' env) p w2) as [o2 w2'].
  cbn [fst snd] in Ho, Hs. subst o2. destruct o1 as [r|e].
  - now split.
  - now apply Hh.
Qed.

Ltac contained :=
  repeat first
    [ apply in_step_ret | apply in_step_throw
    | apply loose_ret | apply loose_throw
    | apply in_step_log
    | apply loose_console
    | apply in_step_do; [reflexivity | intros [?|?]]
    | progress cbn [bind call lift try_catch cipher_update
                    req_file req_body_encryptionKey req_params_fileId
                    req_query_encryptionKey]
    | match goal with
      | |- context [lift ?x] => destruct x
      | |- in_step_rel _ _ (match ?x with _ => _ end) => destruct x
      | |- loose_rel _ _ (match ?x with _ => _ end) => destruct x
      end ].

Lemma upload_contained (req : UploadRequest) :
  in_step_rel env (with_fault f' env) (upload_handler req).
Proof.
  unfold upload_handler, encryptFile.
  apply in_step_try_catch; [|intros e; contained].
  contained.
Qed.

Lemma download_contained (req : DownloadRequest) :
  in_step_rel env (with_fault f' env) (download_handler req).
Proof.
  unfold download_handler.
  apply in_step_try_catch; [|intros e; contained].
  contained.
Qed.

Lemma delete_contained (id : string) :
  in_step_rel env (with_fault f' env) (delete_handler id).
Proof.
  unfold delete_handler.
  apply in_step_try_catch; [|intros e; contained].
  contained.
Qed.

End Contained.

(** C6. The audit recorder never throws, whichever of its two writes
    the environment rejects; and the response and the stores an upload,
    a download or a delete ends with are the same under two environments
    that differ only in which audit writes they reject. *)
Theorem audit_failures_contained :
  (forall env w action details,
      exists w', run env (logActivity action details) w = (Normal tt, w'))
  /\ (forall env f' w,
         (forall t c, is_audit c = false -> f' t c = fault env t c) ->
         (forall req, same_outcome
                        (run env (upload_handler req) w)
                        (run (with_fault f' env) (upload_handler req) w))
         /\ (forall req, same_outcome
                           (run env (download_handler req) w)
                           (run (with_fault f' env) (download_handler req) w))
         /\ (forall id, same_outcome
                          (run env (delete_handler id) w)
                          (run (with_fault f' env) (delete_handler id) w))).
Proof.
  split.
  - intros env w a d. destruct (logActivity_run env w a d) as (w' & H & _).
    now exists w'.
  - intros env f' w H.
    assert (in_step w w) as Hw by now repeat split.
    split; [|split]; intros r.
    + now apply upload_contained.
    + now apply download_contained.
    + now apply delete_contained.
Qed.

(** *** Download and delete *)

(** C3. A download request without an [encryptionKey] is answered 400
    at once: the handler issues no command at all, so the world, with
    its record of service calls, is the one it started in, and no store
    was accessed. *)
Theorem download_requires_key (env : Env) (w : World) (id : string) :
  let req := {| req_params_fileId := id;
                req_query_encryptionKey := None |} in
  run env (download_handler req) w = (Normal key_required, w)
  /\ step env (download_handler req, w) = None
  /\ worlds env (download_handler req) w = [w]
  /\ no_store_access w (snd (run env (download_handler req) w)).
Proof.
  repeat split. exists []. split; [|constructor].
  cbn [run download_handler snd]. now rewrite app_nil_r.
Qed.

(** An empty [encryptionKey] is as good as none. *)
Lemma download_empty_key (env : Env) (w : World) (id : string) :
  run env (download_handler {| req_params_fileId := id;
                               req_query_encryptionKey := Some EmptyString |})
      w
  = (Normal key_required, w).
Proof. reflexivity. Qed.

(** C4. For a [fileId] without a record in the file-metadata table, a
    download that supplies a passphrase (one the handler's own test
    accepts: a non-empty string) and a delete are both answered 404
    when the table answers the lookup, and whether it answers or not
    neither touches the bucket or the table. *)
Theorem unknown_fileId_not_found (env : Env) (w : World) (id key : string) :
  FileMetadata w !! id = None ->
  truthy (Some key) = true ->
  let download :=
    run env (download_handler {| req_params_fileId := id;
                                 req_query_encryptionKey := Some key |}) w in
  let delete := run env (delete_handler id) w in
  (fault env (ticks w) (Dynamo_get_FileMetadata id) = None ->
   fst download = Normal file_not_found
   /\ fst delete = Normal file_not_found)
  /\ stores_eq (snd download) w
  /\ stores_eq (snd delete) w.
Proof.
  intros Hnone Hkey download delete. subst download delete.
  unfold download_handler, delete_handler, stores_eq.
  cbn [req_params_fileId req_query_encryptionKey].
  rewrite Hkey. cbn [negb].
  run_cbn; repeat (first [rewrite Hnone | run_case | run_lookup]; run_cbn).
  all: repeat split; try reflexivity; try discriminate.
Qed.

(** *** Upload *)

Lemma run_ret {R : Type} (env : Env) (r : R) (w : World) :
  run env (Ret r) w = (Normal r, w).
Proof. reflexivity. Qed.

Lemma run_throw {R : Type} (env : Env) (e : JsError) (w : World) :
  run env (@Throw R e) w = (Thrown e, w).
Proof. reflexivity. Qed.

Lemma exec_local (env : Env) (c : Cmd) (w : World) :
  is_service c = false ->
  exec env c w = perform env (ticks w) c (note_call c w).
Proof. intros H. unfold exec. now rewrite H. Qed.

Lemma exec_service (env : Env) (c : Cmd) (w : World) :
  is_service c = true ->
  exec env c w
  = match fault env (ticks w) c with
    | Some e => (Thrown e, note_call c w)
    | None => perform env (ticks w) c (note_call c w)
    end.
Proof. intros H. unfold exec. now rewrite H. Qed.

(** Evaluation of a run by rewriting, one construct at a time. *)
Ltac run_eval_step :=
  first [ rewrite run_try_catch | rewrite run_bind | rewrite run_call
        | rewrite run_lift | rewrite run_ret | rewrite run_throw
        | rewrite exec_local by reflexivity
        | rewrite exec_service by reflexivity
        | progress cbn [perform cipher_update cipher_final cipher_key
                        cipher_iv cipher_pos]
        | progress cbv beta iota ].

Ltac run_log :=
  match goal with
  | |- context [run ?e (logActivity ?a ?d) ?W] =>
      let w1 := fresh "w" in
      let H := fresh in
      let Hs := fresh "Hstores" in
      destruct (logActivity_run e W a d) as (w1 & H & Hs);
      rewrite H; clear H
  end.

Ltac run_eval := repeat first [run_eval_step | run_log | run_case].

Lemma createCipheriv_derived (env : Env) (t : nat) (K : string) :
  createCipheriv "aes-256-ctr" (scryptSync K "salt" 32)
                 (random_octets env t 16)
  = Normal {| cipher_key := scryptSync K "salt" 32;
              cipher_iv := random_octets env t 16;
              cipher_pos := 0 |}.
Proof.
  apply createCipheriv_ok;
    [apply scryptSync_length | apply random_octets_length].
Qed.


(** An upload answered 200 had a file, and has left its blob in the
    bucket and its record in the table. *)
Lemma upload_success (env : Env) (w w' : World) (req : UploadRequest)
      (resp : Response) :
  run env (upload_handler req) w = (Normal resp, w') ->
  statusCode resp = 200 ->
  exists file obj,
    req_file req = Some file
    /\ resp = upload_succeeded (uuid_at env (ticks w))
    /\ FileMetadata w' !! uuid_at env (ticks w)
       = Some (record_of env w file)
    /\ bucket w' !! ("files/" +:+ uuid_at env (ticks w)) = Some obj
    /\ Body obj
       = blob_of env w file
                 (js_or (req_body_encryptionKey req) "default-password").
Proof.
  destruct req as [[file|] key];
    unfold upload_handler, encryptFile, record_of, blob_of;
    cbn [req_file req_body_encryptionKey].
  - repeat run_eval_step. rewrite createCipheriv_derived. run_eval.
    all: intros Hrun Hst; injection Hrun as <- <-; try discriminate Hst.
    destruct Hstores as [Hb Hm]. rewrite Hb, Hm.
    cbn [FileMetadata bucket set_FileMetadata set_bucket note_call].
    eexists _, _. split; [reflexivity|]. split; [reflexivity|].
    rewrite !lookup_insert_eq. split; [reflexivity|].
    split; [reflexivity|]. cbn [Body concat ticks note_call].
    now rewrite !app_nil_r.
  - run_eval. intros Hrun Hst; injection Hrun as <- <-; discriminate Hst.
Qed.

(** With the stores answering and the name encodable, an upload with a
    file is answered 200. *)
Lemma upload_run_ok (env : Env) (w : World) (file : MulterFile)
      (key : option string) (name : string) :
  (forall t c, is_store_access c = true -> fault env t c = None) ->
  encodeURIComponent (originalname file) = Normal name ->
  fst (run env (upload_handler {| req_file := Some file;
                                  req_body_encryptionKey := key |}) w)
  = Normal (upload_succeeded (uuid_at env (ticks w))).
Proof.
  intros Hok Hname. unfold upload_handler, encryptFile.
  cbn [req_file req_body_encryptionKey].
  repeat run_eval_step. rewrite createCipheriv_derived, Hname.
  repeat run_eval_step. rewrite (Hok _ (S3_upload _ _) eq_refl).
  repeat run_eval_step. rewrite (Hok _ (Dynamo_put_FileMetadata _) eq_refl).
  run_eval. reflexivity.
Qed.

Lemma list_handler_lists (env : Env) (w w' : World) (resp : Response) :
  run env list_handler w = (Normal resp, w') ->
  statusCode resp = 200 ->
  resp = files_listed (snd <$> map_to_list (FileMetadata w)).
Proof.
  unfold list_handler. run_eval.
  all: intros Hrun Hst; injection Hrun as <- <-; try discriminate Hst.
  reflexivity.
Qed.

Lemma lookup_listed (m : gmap string FileRecord) (id : string)
      (r : FileRecord) :
  m !! id = Some r -> r ∈ snd <$> map_to_list m.
Proof.
  intros H. apply list_elem_of_fmap. exists (id, r). split; [reflexivity|].
  now apply elem_of_map_to_list.
Qed.

(** C7. After an upload answered 200, the file-metadata table holds,
    under the identifier returned, a record whose [size] is the length
    of the uploaded content (the bucket holds sixteen octets more) and
    whose [encrypted] is [true]; and a listing answered 200 from there
    contains that record. *)
Theorem upload_records_plaintext_size (env : Env) (w w' : World)
        (form : UploadForm) (resp : Response) :
  run env (post_api_upload form) w = (Normal resp, w') ->
  statusCode resp = 200 ->
  exists part rec obj,
    form_file form = Some part
    /\ resp = upload_succeeded (fileId rec)
    /\ FileMetadata w' !! fileId rec = Some rec
    /\ fileName rec = part_filename part
    /\ size rec = length (part_data part)
    /\ encrypted rec = true
    /\ bucket w' !! ("files/" +:+ fileId rec) = Some obj
    /\ length (Body obj) = length (part_data part) + 16
    /\ (forall env2 resp2 w2,
           run env2 list_handler w' = (Normal resp2, w2) ->
           statusCode resp2 = 200 ->
           exists Items, resp2 = files_listed Items /\ rec ∈ Items).
Proof.
  intros Hrun Hst. unfold post_api_upload in Hrun.
  destruct (upload_success _ _ _ _ _ Hrun Hst)
    as (file & obj & Hfile & -> & Hrec & Hobj & Hbody).
  destruct form as [[part|] key]; [|discriminate Hfile].
  injection Hfile as <-.
  exists part, (record_of env w (memoryStorage part)), obj.
  cbn [form_file record_of fileId fileName size encrypted memoryStorage
       originalname file_size].
  repeat (split; [reflexivity || assumption|]).
  split.
  - rewrite Hbody. unfold blob_of. cbn [buffer memoryStorage].
    rewrite length_app, ctr_xor_length, random_octets_length. lia.
  - intros env2 resp2 w2 Hlist Hst2. eexists. split.
    + exact (list_handler_lists _ _ _ _ Hlist Hst2).
    + exact (lookup_listed _ _ _ Hrec).
Qed.

Lemma upload_default_blob (env : Env) (w : World) (part : FilePart)
      (key : option string) (name : string) :
  js_or key "default-password" = "default-password" ->
  encodeURIComponent (part_filename part) = Normal name ->
  (forall t c, is_store_access c = true -> fault env t c = None) ->
  exists w' obj,
    run env (post_api_upload {| form_file := Some part;
                                form_encryptionKey := key |}) w
    = (Normal (upload_succeeded (uuid_at env (ticks w))), w')
    /\ bucket w' !! ("files/" +:+ uuid_at env (ticks w)) = Some obj
    /\ Body obj
       = random_octets env (S (ticks w)) 16
         ++ ctr_xor (scryptSync "default-password" "salt" 32)
                    (random_octets env (S (ticks w)) 16) 0 (part_data part)
    /\ decryptFile (Body obj) "default-password"
       = Normal (part_data part).
Proof.
  intros Hkey Hname Hok.
  pose proof (upload_run_ok env w (memoryStorage part) key name Hok Hname)
    as Hfst.
  unfold post_api_upload, upload_single. cbn [form_file form_encryptionKey].
  cbn [fmap option_fmap option_map].
  destruct (run env _ w) as [o w'] eqn:Hrun. cbn [fst] in Hfst. subst o.
  destruct (upload_success _ _ _ _ _ Hrun eq_refl)
    as (file & obj & Hfile & _ & _ & Hobj & Hbody).
  cbn [req_file req_body_encryptionKey] in Hfile, Hbody.
  injection Hfile as <-. rewrite Hkey in Hbody.
  unfold blob_of in Hbody. cbn [buffer memoryStorage] in Hbody.
  exists w', obj. repeat (split; [reflexivity || assumption|]).
  rewrite Hbody. apply decryptFile_of_encrypted, random_octets_length.
Qed.

(** C5. An upload whose form has no [encryptionKey] field is the very
    program of the upload of the same file with the field set to
    ['default-password']: it is not rejected for the missing field, and
    when the stores answer and the file name is encodable it is answered
    200 with, in the bucket, the file under the key derived from
    ['default-password']. *)
Theorem upload_missing_key_default (file : option FilePart) :
  post_api_upload {| form_file := file; form_encryptionKey := None |}
  = post_api_upload {| form_file := file;
                       form_encryptionKey := Some "default-password" |}
  /\ (forall env w part name,
         file = Some part ->
         encodeURIComponent (part_filename part) = Normal name ->
         (forall t c, is_store_access c = true -> fault env t c = None) ->
         exists w' obj,
           run env (post_api_upload {| form_file := file;
                                       form_encryptionKey := None |}) w
           = (Normal (upload_succeeded (uuid_at env (ticks w))), w')
           /\ bucket w' !! ("files/" +:+ uuid_at env (ticks w)) = Some obj
           /\ Body obj
              = random_octets env (S (ticks w)) 16
                ++ ctr_xor (scryptSync "default-password" "salt" 32)
                           (random_octets env (S (ticks w)) 16) 0
                           (part_data part)
           /\ decryptFile (Body obj) "default-password"
              = Normal (part_data part)).
Proof.
  split; [reflexivity|].
  intros env w part name -> Hname Hok.
  now apply (upload_default_blob env w part None name).
Qed.

(** C9. An upload whose [encryptionKey] field is present and empty is
    the very program of the upload without the field, and so of the
    upload with ['default-password']: the test is the truthiness of the
    field, and the key the file is encrypted under is derived from
    ['default-password'], not from the empty string. *)
Theorem upload_empty_key_default (file : option FilePart) :
  post_api_upload {| form_file := file;
                     form_encryptionKey := Some EmptyString |}
  = post_api_upload {| form_file := file; form_encryptionKey := None |}
  /\ post_api_upload {| form_file := file;
                        form_encryptionKey := Some EmptyString |}
     = post_api_upload {| form_file := file;
                          form_encryptionKey := Some "default-password" |}
  /\ (forall env w part name,
         file = Some part ->
         encodeURIComponent (part_filename part) = Normal name ->
         (forall t c, is_store_access c = true -> fault env t c = None) ->
         exists w' obj,
           run env (post_api_upload
                      {| form_file := file;
                         form_encryptionKey := Some EmptyString |}) w
           = (Normal (upload_succeeded (uuid_at env (ticks w))), w')
           /\ bucket w' !! ("files/" +:+ uuid_at env (ticks w)) = Some obj
           /\ Body obj
              = random_octets env (S (ticks w)) 16
                ++ ctr_xor (scryptSync "default-password" "salt" 32)
                           (random_octets env (S (ticks w)) 16) 0
                           (part_data part)
           /\ decryptFile (Body obj) "default-password"
              = Normal (part_data part)).
Proof.
  split; [reflexivity|]. split; [reflexivity|].
  intros env w part name -> Hname Hok.
  now apply (upload_default_blob env w part (Some EmptyString) name).
Qed.

(** *** Blob before metadata *)

Lemma blob_first_refl (w : World) : blob_first w w.
Proof.
  exists []. split; [now rewrite app_nil_r|].
  intros Item H. now apply not_elem_of_nil in H.
Qed.

Ltac exec_cases c :=
  destruct c; unfold exec; cbn [is_service];
  try (match goal with
       | |- context [fault ?e ?t ?c] => destruct (fault e t c)
       end);
  cbn [perform];
  try (match goal with
       | |- context [match bucket ?w !! ?k with _ => _ end] =>
           destruct (bucket w !! k)
       end);
  cbn [snd bucket FileMetadata calls note_call set_bucket
       set_FileMetadata set_ActivityLogs set_log_stream set_console
       is_service].

Lemma exec_calls (env : Env) (c : Cmd) (w : World) :
  calls (snd (exec env c w))
  = if is_service c then calls w ++ [c] else calls w.
Proof. exec_cases c; reflexivity. Qed.

Lemma exec_bucket_mono (env : Env) (c : Cmd) (w : World) (x : string) :
  guard c w -> is_Some (bucket w !! x) ->
  is_Some (bucket (snd (exec env c w)) !! x).
Proof.
  intros Hg Hx. exec_cases c; try exact Hx; try contradiction.
  apply lookup_insert_is_Some'. now right.
Qed.

Lemma exec_consistent (id : string) (env : Env) (c : Cmd) (w : World) :
  consistent_at id w -> guard c w ->
  consistent_at id (snd (exec env c w)).
Proof.
  unfold consistent_at. intros Hc Hg.
  exec_cases c; try exact Hc; try contradiction; intros Hs.
  - apply lookup_insert_is_Some'. right. auto.
  - cbn [guard] in Hg.
    destruct (decide (fileId Item = id)) as [<-|Hne]; [exact Hg|].
    rewrite lookup_insert_ne in Hs by exact Hne. auto.
  - apply lookup_delete_is_Some in Hs as [_ Hs]. auto.
Qed.

(** A command issued under its guard keeps the invariant, whether the
    environment rejects it or not. *)
Lemma inv_exec (id : string) (w0 : World) (env : Env) (c : Cmd)
      (w : World) :
  upload_inv id w0 w -> guard c w ->
  upload_inv id w0 (snd (exec env c w)).
Proof.
  intros [Hc (l & Hl & Hput)] Hg. split.
  - now apply exec_consistent.
  - exists (if is_service c then l ++ [c] else l). split.
    + rewrite exec_calls, Hl. destruct (is_service c); [|reflexivity].
      now rewrite app_assoc.
    + intros Item HI. apply exec_bucket_mono; [exact Hg|].
      destruct (is_service c); [|now apply Hput].
      apply elem_of_app in HI as [HI|HI]; [now apply Hput|].
      apply list_elem_of_singleton in HI. subst c. exact Hg.
Qed.

Lemma safe_inv {R : Type} (id : string) (w0 : World) (env : Env)
      (p : prog R) (w : World) :
  safe env p w -> upload_inv id w0 w ->
  Forall (upload_inv id w0) (worlds env p w).
Proof.
  revert w. induction p as [r|e|c k IH]; intros w Hs Hi; cbn [worlds].
  - now constructor.
  - now constructor.
  - cbn [safe] in Hs. destruct Hs as [Hg Hk].
    pose proof (inv_exec id w0 env c w Hi Hg) as Hi'.
    destruct (exec env c w) as [o w']. constructor; [exact Hi|].
    now apply IH.
Qed.

Lemma safe_bind {A B : Type} (env : Env) (p : prog A) (f : A -> prog B)
      (w : World) :
  safe env p w ->
  (forall a w', run env p w = (Normal a, w') -> safe env (f a) w') ->
  safe env (bind p f) w.
Proof.
  revert w. induction p as [r|e|c k IH]; intros w Hp Hf;
    cbn [bind safe run] in *.
  - now apply Hf.
  - exact I.
  - destruct Hp as [Hg Hk]. split; [exact Hg|].
    destruct (exec env c w) as [o w']. now apply IH.
Qed.

Lemma safe_try_catch {A : Type} (env : Env) (p : prog A)
      (h : JsError -> prog A) (w : World) :
  safe env p w ->
  (forall e w', run env p w = (Thrown e, w') -> safe env (h e) w') ->
  safe env (try_catch p h) w.
Proof.
  revert w. induction p as [r|e|c k IH]; intros w Hp Hh;
    cbn [try_catch safe run] in *.
  - exact I.
  - now apply Hh.
  - destruct Hp as [Hg Hk]. split; [exact Hg|].
    destruct (exec env c w) as [o w']. now apply IH.
Qed.

Lemma safe_call (env : Env) (c : Cmd) (w : World) :
  guard c w -> safe env (call c) w.
Proof.
  intros Hg. cbn [call safe]. split; [exact Hg|].
  destruct (exec env c w) as [[a|e] w']; exact I.
Qed.

Lemma safe_lift {A : Type} (env : Env) (o : completion A) (w : World) :
  safe env (lift o) w.
Proof. destruct o; exact I. Qed.

Ltac safe_step :=
  first [ apply safe_try_catch; [|intros ? ? _]
        | apply safe_bind; [|intros ? ? _]
        | apply safe_call; exact I
        | apply safe_lift
        | exact I ].

Lemma safe_logActivity (env : Env) (a : string) (d : Json) (w : World) :
  safe env (logActivity a d) w.
Proof. unfold logActivity. repeat safe_step. Qed.

Lemma safe_encryptFile (env : Env) (P : Buffer) (K : string) (w : World) :
  safe env (encryptFile P K) w.
Proof.
  unfold encryptFile. repeat safe_step.
Qed.

(** The upload handler writes the metadata record only in a world whose
    bucket already holds the blob. *)
Lemma safe_upload (env : Env) (req : UploadRequest) (w : World) :
  safe env (upload_handler req) w.
Proof.
  unfold upload_handler.
  apply safe_try_catch; [|intros; repeat safe_step].
  apply safe_bind; [repeat safe_step|]. intros fid w1 _.
  destruct (req_file req) as [file|]; [|exact I].
  apply safe_bind; [apply safe_encryptFile|]. intros blob w2 _.
  apply safe_bind; [apply safe_lift|]. intros name w3 _.
  apply safe_bind; [repeat safe_step|]. intros [] w4 Hs3.
  apply safe_bind; [repeat safe_step|]. intros at_ w5 Hdate.
  apply safe_bind.
  - apply safe_call. cbn [guard fileId].
    rewrite run_call, exec_local in Hdate by reflexivity.
    cbn [perform] in Hdate. injection Hdate as _ <-.
    rewrite run_call, exec_service in Hs3 by reflexivity.
    destruct (fault env (ticks w3) _); [discriminate Hs3|].
    cbn [perform] in Hs3. injection Hs3 as <-.
    cbn [bucket note_call set_bucket]. rewrite lookup_insert_eq. eauto.
  - intros [] w6 _. apply safe_bind; [apply safe_logActivity|].
    intros; exact I.
Qed.

(** C8. An upload writes the blob before the metadata record: started
    in a world without a record for [id] that lacks its blob, the
    handler passes only through worlds without such a record, whichever
    call the environment rejects and wherever the handler stands; and
    in each of them every metadata write issued so far finds the blob
    of its record in the bucket. *)
Theorem upload_blob_before_metadata (env : Env) (w : World)
        (req : UploadRequest) (id : string) :
  consistent_at id w ->
  forall cfg, reachable env (upload_handler req, w) cfg ->
              consistent_at id (snd cfg) /\ blob_first w (snd cfg).
Proof.
  intros Hc cfg Hreach.
  apply reachable_worlds in Hreach. cbn [fst snd] in Hreach.
  assert (upload_inv id w w) as Hi by (split; [exact Hc|apply blob_first_refl]).
  pose proof (safe_inv id w env _ w (safe_upload env req w) Hi) as Hall.
  rewrite Forall_forall in Hall. exact (Hall _ Hreach).
Qed.

(** A run is a sequence of steps: the world it ends in is reachable. *)
Lemma run_reachable {R : Type} (env : Env) (p : prog R) (w : World) :
  exists p', reachable env (p, w) (p', snd (run env p w))
             /\ step env (p', snd (run env p w)) = None.
Proof.
  revert w. induction p as [r|e|c k IH]; intros w.
  - exists (Ret r). split; [constructor|reflexivity].
  - exists (Throw e). split; [constructor|reflexivity].
  - cbn [run]. destruct (exec env c w) as [o w'] eqn:He.
    destruct (IH o w') as (p' & Hr & Hs). exists p'. split; [|exact Hs].
    eapply reach_step; [|exact Hr].
    unfold step. cbn [fst snd]. now rewrite He.
Qed.

(* ===================================================================== *)
(** *** Further properties of the routes *)
(* ===================================================================== *)


Lemma returns_in_try_catch {A : Type} (S : A -> Prop) (p : prog A)
      (h : JsError -> prog A) :
  returns_in S p -> (forall e, returns_in S (h e)) ->
  returns_in S (try_catch p h).
Proof.
  intros Hp Hh.
  induction p as [a|e|c k IH]; cbn [try_catch returns_in] in *; auto.
Qed.


(** The [catch] block of every route: report, then answer 500. *)
Lemma run_catch_block (env : Env) (what label : string) (e : JsError)
      (w : World) :
  run env
      (bind (call (Console_error label e))
            (fun _ => Ret (res_status_json 500
                             (JObj [("success", JBool false);
                                    ("message", JStr what);
                                    ("error", JStr (err_message e))]))))
      w
  = (Normal (server_error what e),
     set_console (console w ++ [(label, e)])
                 (note_call (Console_error label e) w)).
Proof. reflexivity. Qed.




(** Programs by the commands they issue. *)
Lemma only_bind {A B : Type} (P : Cmd -> bool) (p : prog A)
      (f : A -> prog B) :
  only P p -> (forall a, only P (f a)) -> only P (bind p f).
Proof.
  intros Hp Hf. induction p as [a|e|c k IH]; cbn [bind only] in *; auto.
  destruct Hp as [Hc Hk]. split; auto.
Qed.

Lemma only_try_catch {A : Type} (P : Cmd -> bool) (p : prog A)
      (h : JsError -> prog A) :
  only P p -> (forall e, only P (h e)) -> only P (try_catch p h).
Proof.
  intros Hp Hh. induction p as [a|e|c k IH]; cbn [try_catch only] in *; auto.
  destruct Hp as [Hc Hk]. split; auto.
Qed.

Lemma only_call (P : Cmd -> bool) (c : Cmd) : P c = true -> only P (call c).
Proof. intros Hc. split; [exact Hc|]. intros [a|e]; exact I. Qed.

Lemma only_lift {A : Type} (P : Cmd -> bool) (o : completion A) :
  only P (lift o).
Proof. destruct o; exact I. Qed.

Lemma only_run {R : Type} (P : Cmd -> bool) (Q : World -> Prop) (env : Env)
      (p : prog R) (w : World) :
  (forall c w1, P c = true -> Q w1 -> Q (snd (exec env c w1))) ->
  only P p -> Q w -> Q (snd (run env p w)).
Proof.
  intros Hexec. revert w.
  induction p as [a|e|c k IH]; intros w Hp Hw; cbn [only run snd] in *; auto.
  destruct Hp as [Hc Hk]. specialize (Hexec c w Hc Hw).
  destruct (exec env c w) as [o w1]. now apply IH.
Qed.

Ltac only_step :=
  first [ apply only_try_catch; [|intros ?]
        | apply only_bind; [|intros ?]
        | apply only_call; reflexivity
        | apply only_lift
        | match goal with
          | |- only _ (match ?x with _ => _ end) => destruct x
          | |- only _ (if ?x then _ else _) => destruct x
          end
        | exact I ].

Lemma exec_reads_only (env : Env) (c : Cmd) (w w0 : World) :
  reads_only c = true -> stores_eq w w0 -> stores_eq (snd (exec env c w)) w0.
Proof.
  intros Hc Hw. unfold stores_eq in *.
  exec_cases c; try discriminate Hc; exact Hw.
Qed.

Lemma exec_no_audit (env : Env) (c : Cmd) (w w0 : World) :
  no_audit c = true -> audit_eq w w0 -> audit_eq (snd (exec env c w)) w0.
Proof.
  intros Hc Hw. unfold audit_eq in *.
  exec_cases c; try discriminate Hc;
    cbn [ActivityLogs log_stream]; exact Hw.
Qed.

Lemma only_logActivity_reads (a : string) (d : Json) :
  only reads_only (logActivity a d).
Proof. unfold logActivity. repeat only_step. Qed.

(** X2. A download and a listing never write to the bucket or to the
    file-metadata table, whatever the request, whatever the environment
    rejects and however they end. *)
Theorem download_and_list_keep_stores (env : Env) (w : World) :
  (forall req, stores_eq (snd (run env (download_handler req) w)) w)
  /\ stores_eq (snd (run env list_handler w)) w.
Proof.
  assert (stores_eq w w) as Hw by now split.
  split; [intros req|];
    (apply (only_run reads_only (fun w' => stores_eq w' w));
     [intros c w1 Hc H1; now apply exec_reads_only| |exact Hw]).
  - unfold download_handler. repeat only_step.
    all: try apply only_logActivity_reads; repeat only_step.
  - unfold list_handler. repeat only_step.
    all: try apply only_logActivity_reads; repeat only_step.
Qed.

(** X3. Reading the activity logs writes nothing: neither the bucket, nor
    the file-metadata table, nor the audit trail itself (the route does
    not call the audit recorder). *)
Theorem logs_handler_writes_nothing (env : Env) (w : World) :
  stores_eq (snd (run env logs_handler w)) w
  /\ audit_eq (snd (run env logs_handler w)) w.
Proof.
  split.
  - apply (only_run reads_only (fun w' => stores_eq w' w));
      [intros c w1 Hc H1; now apply exec_reads_only| |now split].
    unfold logs_handler. repeat only_step.
  - apply (only_run no_audit (fun w' => audit_eq w' w));
      [intros c w1 Hc H1; now apply exec_no_audit| |now split].
    unfold logs_handler. repeat only_step.
Qed.

(** *** The audit recorder, further *)

Ltac find_mem :=
  first [ apply list_elem_of_here | apply list_elem_of_further; find_mem ].

Ltac world_cbn :=
  cbn [bucket FileMetadata ActivityLogs log_stream console calls ticks
       note_call set_bucket set_FileMetadata set_ActivityLogs
       set_log_stream set_console is_service].

(** What the audit recorder issues and leaves, by what is accepted. *)
Lemma logActivity_effect (env : Env) (w : World)
        (a : string) (d : Json) :
  let ev := audit_event env (ticks w) a d in
  let entry := audit_entry env (ticks w) a d in
  let w' := snd (run env (logActivity a d) w) in
  calls w' = calls w ++ [CloudWatch_putLogEvents LOG_GROUP LOG_STREAM [ev];
                         Dynamo_put_ActivityLogs entry]
  /\ ((forall t, fault env t (Dynamo_put_ActivityLogs entry) = None) ->
      ActivityLogs w' = <[logId entry := entry]> (ActivityLogs w))
  /\ (forall e, (forall t, fault env t (Dynamo_put_ActivityLogs entry)
                           = Some e) ->
                ActivityLogs w' = ActivityLogs w
                /\ ("DynamoDB logging error:", e) ∈ console w')
  /\ ((forall t, fault env t (CloudWatch_putLogEvents LOG_GROUP LOG_STREAM
                                [ev]) = None) ->
      log_stream w' = log_stream w ++ [ev])
  /\ (forall e, (forall t, fault env t (CloudWatch_putLogEvents LOG_GROUP
                                          LOG_STREAM [ev]) = Some e) ->
                log_stream w' = log_stream w
                /\ ("CloudWatch logging error:", e) ∈ console w').
Proof.
  intros ev entry w'. subst ev entry w'.
  unfold logActivity, audit_event, audit_entry. run_faults.
  all: rewrite <- ?app_assoc; cbn [app].
  all: repeat split; try reflexivity; intros.
  all: cbn [Nat.add] in *.
  all: repeat match goal with
              | H : forall t : nat, fault _ t _ = _,
                Hq : fault _ ?t0 _ = _ |- _ => rewrite (H t0) in Hq
              end;
    try discriminate.
  all: repeat match goal with
              | Hq : Some _ = Some _ |- _ => injection Hq as <-
              end.
  all: apply elem_of_app; right; find_mem.
Qed.

(** X4. The two writes of the audit recorder are independent of each
    other.  Both are always issued, in this order and once each, with
    the same action and time stamp.  The entry lands in the
    [ActivityLogs] table exactly when that write is accepted, whether or
    not the log stream accepted the event, and conversely; a rejected
    write is reported on the error output and changes nothing else. *)
Theorem logActivity_writes_are_independent (env : Env) (w : World)
        (a : string) (d : Json) :
  let ev := audit_event env (ticks w) a d in
  let entry := audit_entry env (ticks w) a d in
  let w' := snd (run env (logActivity a d) w) in
  calls w' = calls w ++ [CloudWatch_putLogEvents LOG_GROUP LOG_STREAM [ev];
                         Dynamo_put_ActivityLogs entry]
  /\ ((forall t, fault env t (Dynamo_put_ActivityLogs entry) = None) ->
      ActivityLogs w' = <[logId entry := entry]> (ActivityLogs w))
  /\ (forall e, (forall t, fault env t (Dynamo_put_ActivityLogs entry)
                           = Some e) ->
                ActivityLogs w' = ActivityLogs w
                /\ ("DynamoDB logging error:", e) ∈ console w')
  /\ ((forall t, fault env t (CloudWatch_putLogEvents LOG_GROUP LOG_STREAM
                                [ev]) = None) ->
      log_stream w' = log_stream w ++ [ev])
  /\ (forall e, (forall t, fault env t (CloudWatch_putLogEvents LOG_GROUP
                                          LOG_STREAM [ev]) = Some e) ->
                log_stream w' = log_stream w
                /\ ("CloudWatch logging error:", e) ∈ console w').
Proof. exact (logActivity_effect env w a d). Qed.

(** The run of the audit recorder, with the world it ends in named. *)
Lemma logActivity_run_snd (env : Env) (w : World) (a : string) (d : Json) :
  run env (logActivity a d) w
  = (Normal tt, snd (run env (logActivity a d) w)).
Proof.
  destruct (logActivity_run env w a d) as (w' & Hrun & _). now rewrite Hrun.
Qed.

Lemma logActivity_stores (env : Env) (w : World) (a : string) (d : Json) :
  stores_eq (snd (run env (logActivity a d) w)) w.
Proof.
  destruct (logActivity_run env w a d) as (w' & Hrun & Hs). now rewrite Hrun.
Qed.

(** *** Download, further *)

(** The download route up to the fetch of the blob, for a passphrase the
    route accepts, a record, and stores that answer. *)
Ltac download_start Hkey Hok Hrec :=
  unfold download_handler; cbn [req_params_fileId req_query_encryptionKey];
  rewrite Hkey; cbn [negb string_value];
  rewrite run_try_catch, run_bind, run_call, exec_service by reflexivity;
  rewrite Hok by reflexivity; cbn [perform]; world_cbn; rewrite Hrec;
  cbv beta iota;
  rewrite run_bind, run_call, exec_service by reflexivity;
  rewrite Hok by reflexivity; cbn [perform]; world_cbn;
  repeat match goal with
         | |- context [Res (S3_getObject ?k)] =>
             change (Res (S3_getObject k)) with S3Object
         end.



(** X6. A record whose blob is missing from the bucket is not answered
    404: the error of the bucket is caught and answered 500, and the
    download leaves no trace in the audit trail. *)
Theorem download_missing_blob (env : Env) (w : World) (id key : string)
        (Item : FileRecord) :
  truthy (Some key) = true ->
  FileMetadata w !! id = Some Item ->
  bucket w !! ("files/" +:+ id) = None ->
  (forall t c, is_store_access c = true -> fault env t c = None) ->
  let r := run env (download_handler
                      {| req_params_fileId := id;
                         req_query_encryptionKey := Some key |}) w in
  fst r = Normal (server_error "Error downloading file" NoSuchKey)
  /\ audit_eq (snd r) w
  /\ stores_eq (snd r) w.
Proof.
  intros Hkey Hrec Hblob Hok r. subst r.
  download_start Hkey Hok Hrec. rewrite Hblob. cbv beta iota.
  rewrite run_catch_block. repeat split.
Qed.

(** X7. A blob shorter than the sixteen octets of the initialization
    vector makes the download answer 500 with the message of the cipher,
    and leaves no trace in the audit trail. *)
Theorem download_truncated_blob (env : Env) (w : World) (id key : string)
        (Item : FileRecord) (obj : S3Object) :
  truthy (Some key) = true ->
  FileMetadata w !! id = Some Item ->
  bucket w !! ("files/" +:+ id) = Some obj ->
  length (Body obj) < 16 ->
  (forall t c, is_store_access c = true -> fault env t c = None) ->
  let r := run env (download_handler
                      {| req_params_fileId := id;
                         req_query_encryptionKey := Some key |}) w in
  fst r = Normal (server_error "Error downloading file" ERR_CRYPTO_INVALID_IV)
  /\ audit_eq (snd r) w.
Proof.
  intros Hkey Hrec Hblob Hlen Hok r. subst r.
  download_start Hkey Hok Hrec. rewrite Hblob. cbv beta iota.
  rewrite run_bind, run_lift, decryptFile_short by exact Hlen.
  cbv beta iota. rewrite run_catch_block. repeat split.
Qed.

(** X8. The download is entered in the audit trail before the response
    headers are set: when a header value of the record is one the
    response refuses, the client is answered 500, and yet the audit
    recorder has been called with [FILE_DOWNLOAD] for that file, and its
    entry is in the [ActivityLogs] table if that write was accepted. *)
Theorem download_logged_before_headers (env : Env) (w : World)
        (id key : string) (Item : FileRecord) (obj : S3Object) :
  truthy (Some key) = true ->
  FileMetadata w !! id = Some Item ->
  bucket w !! ("files/" +:+ id) = Some obj ->
  16 <= length (Body obj) ->
  (forall t c, is_store_access c = true -> fault env t c = None) ->
  validHeaderValue (contentType Item) = false ->
  let r := run env (download_handler
                      {| req_params_fileId := id;
                         req_query_encryptionKey := Some key |}) w in
  let entry :=
    audit_entry env (2 + ticks w) "FILE_DOWNLOAD"
                (JObj [("fileId", JStr id);
                       ("fileName", JStr (fileName Item))]) in
  fst r = Normal (server_error "Error downloading file"
                               (ERR_INVALID_CHAR "Content-Type"))
  /\ Dynamo_put_ActivityLogs entry ∈ calls (snd r)
  /\ ((forall t, fault env t (Dynamo_put_ActivityLogs entry) = None) ->
      ActivityLogs (snd r) !! logId entry = Some entry).
Proof.
  intros Hkey Hrec Hblob Hlen Hok Hct r entry. subst r entry.
  download_start Hkey Hok Hrec. rewrite Hblob. cbv beta iota.
  rewrite run_bind, run_lift, decryptFile_long by exact Hlen.
  cbv beta iota.
  rewrite run_bind, logActivity_run_snd. cbv beta iota.
  unfold setHeader. rewrite Hct. rewrite run_bind, run_lift. cbv beta iota.
  rewrite run_catch_block. cbn [fst snd]. world_cbn.
  match goal with
  | |- context [run env (logActivity ?a ?d) ?w0] =>
      destruct (logActivity_effect env w0 a d) as (Hcalls & Hacc & _)
  end.
  cbn [ticks note_call Nat.add] in *.
  split; [reflexivity|]. split.
  - rewrite Hcalls. apply elem_of_app. right. find_mem.
  - intros Hput. rewrite (Hacc Hput). apply lookup_insert_eq.
Qed.

(** X9. An [encryptionKey] that is present and empty is refused like a
    missing one: the download is answered 400 before any command is
    issued, so without any access to the stores. *)
Theorem download_falsy_key_rejected (env : Env) (w : World) (id : string)
        (key : option string) :
  truthy key = false ->
  let req := {| req_params_fileId := id; req_query_encryptionKey := key |} in
  run env (download_handler req) w = (Normal key_required, w)
  /\ step env (download_handler req, w) = None.
Proof.
  intros Hkey req. subst req. unfold download_handler, step.
  cbn [req_params_fileId req_query_encryptionKey fst]. rewrite Hkey.
  split; reflexivity.
Qed.

(** *** Upload, further *)



(** X11. An upload that is not answered 200 has written no metadata
    record and has not called the audit recorder: the file-metadata
    table and the audit trail are as they were (a blob may have been
    left in the bucket). *)
Theorem failed_upload_is_silent (env : Env) (w w' : World)
        (req : UploadRequest) (resp : Response) :
  run env (upload_handler req) w = (Normal resp, w') ->
  statusCode resp <> 200 ->
  FileMetadata w' = FileMetadata w
  /\ audit_eq w' w
  /\ exists l, calls w' = calls w ++ l
               /\ Forall (fun c => is_audit c = false) l.
Proof.
  destruct req as [[file|] key]; unfold upload_handler, encryptFile;
    cbn [req_file req_body_encryptionKey].
  - repeat run_eval_step. rewrite createCipheriv_derived. run_eval.
    all: intros Hrun Hst; injection Hrun as <- <-;
      try (exfalso; apply Hst; reflexivity).
    all: unfold audit_eq; world_cbn.
    all: split; [reflexivity|]; split; [split; reflexivity|].
    all: first
           [ exists []; split; [symmetry; apply app_nil_r|constructor]
           | eexists; split;
             [rewrite <- ?app_assoc; reflexivity|repeat constructor] ].
  - run_eval. intros Hrun Hst; injection Hrun as <- <-.
    unfold audit_eq; world_cbn.
    split; [reflexivity|]; split; [split; reflexivity|].
    exists []. split; [symmetry; apply app_nil_r|constructor].
Qed.


(** X13. There is no compensation when the metadata write is rejected:
    the upload is answered 500 with the message of that error, the blob
    just written stays in the bucket, and the table has no record for
    it beyond what it had. *)
Theorem upload_metadata_rejected (env : Env) (w : World) (file : MulterFile)
        (key : option string) (name : string) (e : JsError) :
  encodeURIComponent (originalname file) = Normal name ->
  (forall t k obj, fault env t (S3_upload k obj) = None) ->
  (forall t Item, fault env t (Dynamo_put_FileMetadata Item) = Some e) ->
  let r := run env (upload_handler {| req_file := Some file;
                                      req_body_encryptionKey := key |}) w in
  let id := uuid_at env (ticks w) in
  fst r = Normal (server_error "Error uploading file" e)
  /\ (exists obj,
         bucket (snd r) !! ("files/" +:+ id) = Some obj
         /\ Body obj = blob_of env w file (js_or key "default-password"))
  /\ FileMetadata (snd r) = FileMetadata w.
Proof.
  intros Hname Hs3 Hput r id. subst r id.
  unfold upload_handler, encryptFile, blob_of.
  cbn [req_file req_body_encryptionKey].
  repeat run_eval_step. rewrite createCipheriv_derived, Hname.
  repeat run_eval_step. rewrite Hs3. repeat run_eval_step.
  rewrite Hput. repeat run_eval_step. cbn [fst snd]. world_cbn.
  split; [reflexivity|]. split; [|reflexivity].
  eexists. split; [apply lookup_insert_eq|].
  cbn [Body concat]. now rewrite !app_nil_r.
Qed.

(** The audit recorder in one statement: it returns, keeps the stores,
    and issues its two writes. *)
Lemma logActivity_spec (env : Env) (w : World) (a : string) (d : Json) :
  exists w',
    run env (logActivity a d) w = (Normal tt, w')
    /\ stores_eq w' w
    /\ calls w'
       = calls w
         ++ [CloudWatch_putLogEvents LOG_GROUP LOG_STREAM
               [audit_event env (ticks w) a d];
             Dynamo_put_ActivityLogs (audit_entry env (ticks w) a d)]
    /\ ((forall t, fault env t (Dynamo_put_ActivityLogs
                                  (audit_entry env (ticks w) a d)) = None) ->
        ActivityLogs w'
        = <[logId (audit_entry env (ticks w) a d) :=
              audit_entry env (ticks w) a d]> (ActivityLogs w)).
Proof.
  exists (snd (run env (logActivity a d) w)).
  split; [apply logActivity_run_snd|]. split; [apply logActivity_stores|].
  destruct (logActivity_effect env w a d) as (Hcalls & Hacc & _).
  split; assumption.
Qed.

Ltac run_log_spec :=
  match goal with
  | |- context [run ?e (logActivity ?a ?d) ?W] =>
      let w1 := fresh "w" in
      let H := fresh in
      let Hs := fresh "Hstores" in
      let Hc := fresh "Hcalls" in
      let Ha := fresh "Hentry" in
      destruct (logActivity_spec e W a d) as (w1 & H & Hs & Hc & Ha);
      rewrite H; clear H
  end.

(** X14. An upload answered 200 has issued exactly four service calls,
    once each and in this order: the blob to the bucket, the record to
    the file-metadata table, the audit event to the log stream and the
    audit entry to the [ActivityLogs] table; the audit entry has action
    [FILE_UPLOAD] and details naming the identifier, the file name and
    the size. *)
Theorem upload_call_sequence (env : Env) (w w' : World)
        (req : UploadRequest) (resp : Response) :
  run env (upload_handler req) w = (Normal resp, w') ->
  statusCode resp = 200 ->
  exists file obj,
    let id := uuid_at env (ticks w) in
    let details := JObj [("fileId", JStr id);
                         ("fileName", JStr (originalname file));
                         ("size", JNum (Z.of_nat (file_size file)))] in
    req_file req = Some file
    /\ calls w'
       = calls w
         ++ [S3_upload ("files/" +:+ id) obj;
             Dynamo_put_FileMetadata (record_of env w file);
             CloudWatch_putLogEvents LOG_GROUP LOG_STREAM
               [audit_event env (5 + ticks w) "FILE_UPLOAD" details];
             Dynamo_put_ActivityLogs
               (audit_entry env (5 + ticks w) "FILE_UPLOAD" details)].
Proof.
  destruct req as [[file|] key]; unfold upload_handler, encryptFile;
    cbn [req_file req_body_encryptionKey].
  - repeat run_eval_step. rewrite createCipheriv_derived.
    repeat first [run_eval_step | run_log_spec | run_case].
    all: intros Hrun Hst; injection Hrun as <- <-; try discriminate Hst.
    eexists _, _. split; [reflexivity|]. rewrite Hcalls.
    world_cbn. rewrite <- !app_assoc. reflexivity.
  - run_eval. intros Hrun Hst; injection Hrun as <- <-; discriminate Hst.
Qed.

(** X15. An upload touches nothing but its own file: however it ends,
    every object of the bucket under another key than that of the
    identifier it drew, and every record of the table under another
    identifier, is as it was. *)
Theorem upload_leaves_other_files (env : Env) (w : World)
        (req : UploadRequest) :
  let w' := snd (run env (upload_handler req) w) in
  let id := uuid_at env (ticks w) in
  (forall k, k <> "files/" +:+ id -> bucket w' !! k = bucket w !! k)
  /\ (forall id', id' <> id ->
                  FileMetadata w' !! id' = FileMetadata w !! id').
Proof.
  intros w' id. subst w' id.
  destruct req as [[file|] key]; unfold upload_handler, encryptFile;
    cbn [req_file req_body_encryptionKey].
  - repeat run_eval_step. rewrite createCipheriv_derived. run_eval.
    all: cbn [snd]; try destruct Hstores as [-> ->]; world_cbn.
    all: split; intros x Hx; try reflexivity.
    all: cbn [fileId]; rewrite ?lookup_insert_ne by congruence; reflexivity.
  - run_eval. cbn [snd]. world_cbn. now split.
Qed.

(** *** Delete *)

(** Evaluation of the delete route, by whether the lookup finds a
    record. *)
Ltac delete_eval w id :=
  let Hrec := fresh "Hrec" in
  unfold delete_handler;
  destruct (FileMetadata w !! id) eqn:Hrec;
  repeat first [ run_eval_step | run_log_spec | run_case
               | progress world_cbn | rewrite Hrec ].

(** A delete answered 200 found a record, and has left neither the blob
    nor the record. *)
Lemma delete_success (env : Env) (w w' : World) (id : string)
      (resp : Response) :
  run env (delete_handler id) w = (Normal resp, w') ->
  statusCode resp = 200 ->
  resp = delete_succeeded
  /\ is_Some (FileMetadata w !! id)
  /\ bucket w' = delete ("files/" +:+ id) (bucket w)
  /\ FileMetadata w' = delete id (FileMetadata w).
Proof.
  delete_eval w id.
  all: intros Hrun Hst; injection Hrun as <- <-; try discriminate Hst.
  destruct Hstores as [-> ->]. world_cbn. repeat split; eauto.
Qed.

(** A lookup that finds no record ends both routes with 404. *)
Lemma no_record_not_found (env : Env) (w : World) (id key : string) :
  FileMetadata w !! id = None ->
  truthy (Some key) = true ->
  fault env (ticks w) (Dynamo_get_FileMetadata id) = None ->
  fst (run env (download_handler {| req_params_fileId := id;
                                    req_query_encryptionKey := Some key |}) w)
  = Normal file_not_found
  /\ fst (run env (delete_handler id) w) = Normal file_not_found.
Proof.
  intros Hnone Hkey Hok.
  unfold download_handler, delete_handler.
  cbn [req_params_fileId req_query_encryptionKey].
  rewrite Hkey. cbn [negb].
  rewrite !run_try_catch, !run_bind, !run_call, !exec_service by reflexivity.
  rewrite Hok. cbn [perform]. world_cbn. rewrite Hnone. split; reflexivity.
Qed.

(** X16. A delete answered 200 has issued, in this order, the lookup of
    the record, the delete of the blob, the delete of the record and the
    two audit writes for [FILE_DELETE], naming the file by the name of the
    record it found; the blob and the record are gone and every other
    blob and record is as it was. *)
Theorem delete_call_sequence (env : Env) (w w' : World) (id : string)
        (resp : Response) :
  run env (delete_handler id) w = (Normal resp, w') ->
  statusCode resp = 200 ->
  exists Item,
    let details := JObj [("fileId", JStr id);
                         ("fileName", JStr (fileName Item))] in
    FileMetadata w !! id = Some Item
    /\ resp = delete_succeeded
    /\ calls w'
       = calls w
         ++ [Dynamo_get_FileMetadata id;
             S3_deleteObject ("files/" +:+ id);
             Dynamo_delete_FileMetadata id;
             CloudWatch_putLogEvents LOG_GROUP LOG_STREAM
               [audit_event env (3 + ticks w) "FILE_DELETE" details];
             Dynamo_put_ActivityLogs
               (audit_entry env (3 + ticks w) "FILE_DELETE" details)]
    /\ bucket w' = delete ("files/" +:+ id) (bucket w)
    /\ FileMetadata w' = delete id (FileMetadata w).
Proof.
  delete_eval w id.
  all: intros Hrun Hst; injection Hrun as <- <-; try discriminate Hst.
  destruct Hstores as [-> ->]. eexists. split; [reflexivity|].
  split; [reflexivity|]. rewrite Hcalls. world_cbn.
  rewrite <- !app_assoc. repeat split.
Qed.

(** X17. A deleted file is gone for the routes: after a delete answered
    200, a download of the same identifier, whatever passphrase it
    supplies, and a second delete are answered 404 whenever the table
    answers their lookup. *)
Theorem delete_then_not_found (env env2 : Env) (w w' : World)
        (id key : string) (resp : Response) :
  run env (delete_handler id) w = (Normal resp, w') ->
  statusCode resp = 200 ->
  truthy (Some key) = true ->
  fault env2 (ticks w') (Dynamo_get_FileMetadata id) = None ->
  fst (run env2 (download_handler
                   {| req_params_fileId := id;
                      req_query_encryptionKey := Some key |}) w')
  = Normal file_not_found
  /\ fst (run env2 (delete_handler id) w') = Normal file_not_found.
Proof.
  intros Hrun Hst Hkey Hok.
  destruct (delete_success _ _ _ _ _ Hrun Hst) as (_ & _ & _ & Hm).
  apply no_record_not_found; [|exact Hkey|exact Hok].
  rewrite Hm. apply lookup_delete_eq.
Qed.

(** X18. A delete that fails half-way leaves a record without its blob:
    when the bucket accepts the delete of the blob and the table rejects
    the delete of the record, the route answers 500 with the message of
    that error, the blob is gone, the record is still in the table, and
    nothing is entered in the audit trail. *)
Theorem delete_partial_failure (env : Env) (w : World) (id : string)
        (Item : FileRecord) (e : JsError) :
  FileMetadata w !! id = Some Item ->
  fault env (ticks w) (Dynamo_get_FileMetadata id) = None ->
  fault env (1 + ticks w) (S3_deleteObject ("files/" +:+ id)) = None ->
  fault env (2 + ticks w) (Dynamo_delete_FileMetadata id) = Some e ->
  let r := run env (delete_handler id) w in
  fst r = Normal (server_error "Error deleting file" e)
  /\ bucket (snd r) !! ("files/" +:+ id) = None
  /\ FileMetadata (snd r) !! id = Some Item
  /\ FileMetadata (snd r) = FileMetadata w
  /\ audit_eq (snd r) w.
Proof.
  intros Hrec Hget Hs3 Hdel r. subst r. unfold delete_handler.
  cbn [Nat.add] in Hs3, Hdel.
  rewrite run_try_catch, run_bind, run_call, exec_service by reflexivity.
  rewrite Hget. cbn [perform]. world_cbn. rewrite Hrec. cbv beta iota.
  rewrite run_bind, run_call, exec_service by reflexivity.
  world_cbn. rewrite Hs3. cbn [perform]. cbv beta iota.
  rewrite run_bind, run_call, exec_service by reflexivity.
  world_cbn. rewrite Hdel. cbv beta iota.
  rewrite run_catch_block. cbn [fst snd]. unfold audit_eq. world_cbn.
  rewrite lookup_delete_eq. repeat split. exact Hrec.
Qed.

(** X19. A delete that is not answered 200 has deleted no record and
    has not called the audit recorder: the file-metadata table and the
    audit trail are as they were, and the bucket is as it was or lacks
    only the blob of that identifier. *)
Theorem failed_delete_keeps_record (env : Env) (w w' : World) (id : string)
        (resp : Response) :
  run env (delete_handler id) w = (Normal resp, w') ->
  statusCode resp <> 200 ->
  FileMetadata w' = FileMetadata w
  /\ audit_eq w' w
  /\ (bucket w' = bucket w
      \/ bucket w' = delete ("files/" +:+ id) (bucket w))
  /\ exists l, calls w' = calls w ++ l
               /\ Forall (fun c => is_audit c = false) l.
Proof.
  delete_eval w id.
  all: intros Hrun Hst; injection Hrun as <- <-;
    try (exfalso; apply Hst; reflexivity).
  all: unfold audit_eq; world_cbn.
  all: split; [reflexivity|]; split; [split; reflexivity|].
  all: split; [first [left; reflexivity | right; reflexivity]|].
  all: eexists; split;
    [rewrite <- ?app_assoc; reflexivity|repeat constructor].
Qed.

(** *** Programs under a guard *)

Lemma safe_with_bind {A B : Type} (g : Cmd -> World -> Prop) (env : Env)
      (p : prog A) (f : A -> prog B) (w : World) :
  safe_with g env p w ->
  (forall a w', run env p w = (Normal a, w') -> safe_with g env (f a) w') ->
  safe_with g env (bind p f) w.
Proof.
  revert w. induction p as [r|e|c k IH]; intros w Hp Hf;
    cbn [bind safe_with run] in *.
  - now apply Hf.
  - exact I.
  - destruct Hp as [Hg Hk]. split; [exact Hg|].
    destruct (exec env c w) as [o w']. now apply IH.
Qed.

Lemma safe_with_try_catch {A : Type} (g : Cmd -> World -> Prop) (env : Env)
      (p : prog A) (h : JsError -> prog A) (w : World) :
  safe_with g env p w ->
  (forall e w', run env p w = (Thrown e, w') -> safe_with g env (h e) w') ->
  safe_with g env (try_catch p h) w.
Proof.
  revert w. induction p as [r|e|c k IH]; intros w Hp Hh;
    cbn [try_catch safe_with run] in *.
  - exact I.
  - now apply Hh.
  - destruct Hp as [Hg Hk]. split; [exact Hg|].
    destruct (exec env c w) as [o w']. now apply IH.
Qed.

Lemma safe_with_call (g : Cmd -> World -> Prop) (env : Env) (c : Cmd)
      (w : World) :
  g c w -> safe_with g env (call c) w.
Proof.
  intros Hg. cbn [call safe_with]. split; [exact Hg|].
  destruct (exec env c w) as [[a|e] w']; exact I.
Qed.

Lemma safe_with_lift {A : Type} (g : Cmd -> World -> Prop) (env : Env)
      (o : completion A) (w : World) :
  safe_with g env (lift o) w.
Proof. destruct o; exact I. Qed.

(** What every guarded command keeps holds in every world of a guarded
    program. *)
Lemma safe_with_worlds {R : Type} (Inv : World -> Prop)
      (g : Cmd -> World -> Prop) (env : Env) (p : prog R) (w : World) :
  (forall c w, Inv w -> g c w -> Inv (snd (exec env c w))) ->
  safe_with g env p w -> Inv w -> Forall Inv (worlds env p w).
Proof.
  intros Hexec. revert w.
  induction p as [r|e|c k IH]; intros w Hs Hi; cbn [worlds].
  - now constructor.
  - now constructor.
  - cbn [safe_with] in Hs. destruct Hs as [Hg Hk].
    pose proof (Hexec c w Hi Hg) as Hi'.
    destruct (exec env c w) as [o w']. constructor; [exact Hi|].
    now apply IH.
Qed.

Ltac safe_with_step :=
  first [ apply safe_with_try_catch; [|intros ? ? _]
        | apply safe_with_bind; [|intros ? ? _]
        | apply safe_with_call; exact I
        | apply safe_with_lift
        | exact I ].

Lemma exec_bucket_none (env : Env) (c : Cmd) (w : World) (x : string) :
  guard_delete c w -> bucket w !! x = None ->
  bucket (snd (exec env c w)) !! x = None.
Proof.
  intros Hg Hx. exec_cases c; try exact Hx; try contradiction.
  apply lookup_delete_None. now right.
Qed.

Lemma exec_no_orphan (id : string) (env : Env) (c : Cmd) (w : World) :
  no_orphan_at id w -> guard_delete c w ->
  no_orphan_at id (snd (exec env c w)).
Proof.
  unfold no_orphan_at. intros Hc Hg.
  exec_cases c; try exact Hc; try contradiction; intros Hs.
  - apply lookup_delete_is_Some in Hs as [_ Hs]. auto.
  - apply lookup_insert_is_Some'. right. auto.
  - cbn [guard_delete] in Hg.
    destruct (decide (Key = id)) as [->|Hne].
    + rewrite Hg in Hs. now destruct Hs.
    + rewrite lookup_delete_ne by exact Hne. auto.
Qed.

Lemma record_last_refl (w : World) : record_last w w.
Proof.
  exists []. split; [now rewrite app_nil_r|].
  intros k H. now apply not_elem_of_nil in H.
Qed.

Lemma exec_record_last (w0 : World) (env : Env) (c : Cmd) (w : World) :
  record_last w0 w -> guard_delete c w ->
  record_last w0 (snd (exec env c w)).
Proof.
  intros (l & Hl & Hdel) Hg.
  exists (if is_service c then l ++ [c] else l). split.
  - rewrite exec_calls, Hl. destruct (is_service c); [|reflexivity].
    now rewrite app_assoc.
  - intros k Hk. apply exec_bucket_none; [exact Hg|].
    destruct (is_service c); [|now apply Hdel].
    apply elem_of_app in Hk as [Hk|Hk]; [now apply Hdel|].
    apply list_elem_of_singleton in Hk. subst c. exact Hg.
Qed.

(** The delete route writes no blob, and deletes the record only in a
    world whose bucket no longer holds the blob. *)
Lemma safe_delete (env : Env) (id : string) (w : World) :
  safe_with guard_delete env (delete_handler id) w.
Proof.
  unfold delete_handler.
  apply safe_with_try_catch; [|intros; repeat safe_with_step].
  apply safe_with_bind; [repeat safe_with_step|]. intros [Item|] w1 Hget;
    [|exact I].
  apply safe_with_bind; [repeat safe_with_step|]. intros [] w2 Hs3.
  apply safe_with_bind.
  - apply safe_with_call. cbn [guard_delete].
    rewrite run_call, exec_service in Hs3 by reflexivity.
    destruct (fault env (ticks w1) _); [discriminate Hs3|].
    cbn [perform] in Hs3. injection Hs3 as <-.
    cbn [bucket note_call set_bucket]. apply lookup_delete_eq.
  - intros [] w3 _. apply safe_with_bind.
    + unfold logActivity. repeat safe_with_step.
    + intros; exact I.
Qed.

(** X20. A delete removes the blob before the record: started in a
    world where the blob of [id'] has its record, the delete of any
    file passes only through worlds where that is so, whichever call
    the environment rejects and wherever the handler stands; and in
    each of them every delete of a record issued so far finds the bucket
    without the blob of that record. *)
Theorem delete_blob_before_record (env : Env) (w : World) (id id' : string) :
  no_orphan_at id' w ->
  forall cfg, reachable env (delete_handler id, w) cfg ->
              no_orphan_at id' (snd cfg) /\ record_last w (snd cfg).
Proof.
  intros Hc cfg Hreach.
  apply reachable_worlds in Hreach. cbn [fst snd] in Hreach.
  assert (Forall (fun x => no_orphan_at id' x /\ record_last w x)
                 (worlds env (delete_handler id) w)) as HF.
  { apply (safe_with_worlds _ guard_delete).
    - intros c x [H1 H2] Hg. split;
        [now apply exec_no_orphan|now apply exec_record_last].
    - apply safe_delete.
    - split; [exact Hc|apply record_last_refl]. }
  rewrite Forall_forall in HF. exact (HF _ Hreach).
Qed.

(** *** Listings *)

Lemma listed_iff {A : Type} (m : gmap string A) (r : A) :
  r ∈ snd <$> map_to_list m <-> exists id, m !! id = Some r.
Proof.
  rewrite list_elem_of_fmap. split.
  - intros ([id x] & -> & Hin). exists id. now apply elem_of_map_to_list.
  - intros (id & H). exists (id, r). split; [reflexivity|].
    now apply elem_of_map_to_list.
Qed.

(** X21. A listing answered 200 returns the records of the table as it
    was when the route was entered: a record is listed if and only if
    the table holds it, there are as many as the table has keys, and the
    [count] entered in the audit trail for [LIST_FILES] is that number. *)
Theorem list_answers_the_table (env : Env) (w w' : World)
        (resp : Response) :
  run env list_handler w = (Normal resp, w') ->
  statusCode resp = 200 ->
  exists Items,
    let details := JObj [("count", JNum (Z.of_nat (length Items)))] in
    resp = files_listed Items
    /\ (forall r, r ∈ Items <-> exists id, FileMetadata w !! id = Some r)
    /\ length Items = stdpp.base.size (FileMetadata w)
    /\ calls w'
       = calls w
         ++ [Dynamo_scan_FileMetadata;
             CloudWatch_putLogEvents LOG_GROUP LOG_STREAM
               [audit_event env (1 + ticks w) "LIST_FILES" details];
             Dynamo_put_ActivityLogs
               (audit_entry env (1 + ticks w) "LIST_FILES" details)].
Proof.
  unfold list_handler.
  repeat first [run_eval_step | run_log_spec | run_case | progress world_cbn].
  all: intros Hrun Hst; injection Hrun as <- <-; try discriminate Hst.
  eexists. split; [reflexivity|]. split; [apply listed_iff|].
  split; [now rewrite length_fmap, length_map_to_list|].
  rewrite Hcalls. world_cbn. now rewrite <- !app_assoc.
Qed.


(** What a listing of the audit table answered 200 returns. *)
Lemma logs_handler_lists (env : Env) (w w' : World) (resp : Response) :
  run env logs_handler w = (Normal resp, w') ->
  statusCode resp = 200 ->
  resp = logs_listed (snd <$> map_to_list (ActivityLogs w)).
Proof.
  unfold logs_handler. run_eval.
  all: intros Hrun Hst; injection Hrun as <- <-; try discriminate Hst.
  reflexivity.
Qed.

(** X23. What the audit recorder has put in the table, the logs route
    returns: after a call of the recorder whose write to the
    [ActivityLogs] table was accepted, a listing of the logs answered
    200 contains the entry of that call, with the action, the moment and
    the details as the recorder serialised them. *)
Theorem logged_then_listed (env env2 : Env) (w w2 : World)
        (a : string) (d : Json) (resp : Response) :
  (forall t, fault env t (Dynamo_put_ActivityLogs
                            (audit_entry env (ticks w) a d)) = None) ->
  run env2 logs_handler (snd (run env (logActivity a d) w))
  = (Normal resp, w2) ->
  statusCode resp = 200 ->
  exists Items,
    resp = logs_listed Items
    /\ audit_entry env (ticks w) a d ∈ Items.
Proof.
  intros Hok Hrun Hst.
  destruct (logActivity_spec env w a d) as (w1 & Hr & _ & _ & Hentry).
  rewrite Hr in Hrun. cbn [snd] in Hrun.
  eexists. split; [exact (logs_handler_lists _ _ _ _ Hrun Hst)|].
  apply listed_iff. eexists. rewrite (Hentry Hok). apply lookup_insert_eq.
Qed.

(** X24. An upload shows in the logs: after an upload answered 200 whose
    audit write to the table was accepted, a listing of the logs
    answered 200 contains a [FILE_UPLOAD] entry whose details are the
    serialised identifier, name and size of the uploaded file. *)
Theorem upload_then_logs (env env2 : Env) (w w' w2 : World)
        (req : UploadRequest) (resp resp2 : Response) :
  run env (upload_handler req) w = (Normal resp, w') ->
  statusCode resp = 200 ->
  (forall t item, fault env t (Dynamo_put_ActivityLogs item) = None) ->
  run env2 logs_handler w' = (Normal resp2, w2) ->
  statusCode resp2 = 200 ->
  exists file Items entry,
    req_file req = Some file
    /\ resp2 = logs_listed Items
    /\ entry ∈ Items
    /\ action entry = "FILE_UPLOAD"
    /\ details entry
       = JSON_stringify
           (JObj [("fileId", JStr (uuid_at env (ticks w)));
                  ("fileName", JStr (originalname file));
                  ("size", JNum (Z.of_nat (file_size file)))]).
Proof.
  intros Hrun Hst Hok Hrun2 Hst2.
  apply (logs_handler_lists _ _ _ _ Hrun2) in Hst2. subst resp2.
  revert Hrun Hst.
  destruct req as [[file|] key]; unfold upload_handler, encryptFile;
    cbn [req_file req_body_encryptionKey].
  - repeat run_eval_step. rewrite createCipheriv_derived.
    repeat first [run_eval_step | run_log_spec | run_case].
    all: intros Hrun Hst; injection Hrun as <- <-; try discriminate Hst.
    eexists _, _, _. split; [reflexivity|]. split; [reflexivity|].
    split.
    + apply listed_iff. eexists. rewrite Hentry by (intros; apply Hok).
      apply lookup_insert_eq.
    + split; reflexivity.
  - run_eval. intros Hrun Hst; injection Hrun as <- <-; discriminate Hst.
Qed.

(** *** The codec, further *)

Lemma byte_xor_comm (a b : byte) : byte_xor a b = byte_xor b a.
Proof.
  unfold byte_xor.
  destruct (Byte.to_bits a) as (a0 & a1 & a2 & a3 & a4 & a5 & a6 & a7).
  destruct (Byte.to_bits b) as (b0 & b1 & b2 & b3 & b4 & b5 & b6 & b7).
  f_equal.
  now rewrite (xorb_comm a0), (xorb_comm a1), (xorb_comm a2),
    (xorb_comm a3), (xorb_comm a4), (xorb_comm a5), (xorb_comm a6),
    (xorb_comm a7).
Qed.

Lemma xorb_swap (a b c : bool) : xorb (xorb a b) c = xorb (xorb a c) b.
Proof. now destruct a, b, c. Qed.

Lemma byte_xor_swap (a b c : byte) :
  byte_xor (byte_xor a b) c = byte_xor (byte_xor a c) b.
Proof.
  unfold byte_xor.
  destruct (Byte.to_bits a) as (a0 & a1 & a2 & a3 & a4 & a5 & a6 & a7).
  destruct (Byte.to_bits b) as (b0 & b1 & b2 & b3 & b4 & b5 & b6 & b7).
  destruct (Byte.to_bits c) as (c0 & c1 & c2 & c3 & c4 & c5 & c6 & c7).
  rewrite !Byte.to_bits_of_bits. f_equal.
  now rewrite (xorb_swap a0), (xorb_swap a1), (xorb_swap a2),
    (xorb_swap a3), (xorb_swap a4), (xorb_swap a5), (xorb_swap a6),
    (xorb_swap a7).
Qed.

(** Two octets that send some octet to the same octet are equal. *)
Lemma byte_xor_cancel (a b c : byte) :
  byte_xor a b = byte_xor a c -> b = c.
Proof.
  intros H.
  rewrite <- (byte_xor_involutive b a), <- (byte_xor_involutive c a).
  now rewrite (byte_xor_comm b a), (byte_xor_comm c a), H.
Qed.

(** Undoing one mask with another gives the octet back exactly when
    the masks are equal. *)
Lemma byte_xor_undo (b k k' : byte) :
  byte_xor (byte_xor b k) k' = b <-> k' = k.
Proof.
  split; [|intros ->; apply byte_xor_involutive].
  intros H. apply (byte_xor_cancel (byte_xor b k)).
  now rewrite H, byte_xor_involutive.
Qed.

Lemma ctr_xor_mask (key iv : Buffer) (p : nat) (C D : Buffer) :
  ctr_xor key iv p (xor_buffers C D)
  = xor_buffers (ctr_xor key iv p C) D.
Proof.
  unfold xor_buffers. revert p D.
  induction C as [|c C IH]; intros p [|d D]; cbn [zip_with ctr_xor];
    try reflexivity.
  now rewrite IH, byte_xor_swap.
Qed.

(** X25. [decryptFile] does not authenticate the blob: changing the
    content of a blob by an octet-wise exclusive or with a mask changes
    the decrypted output by the same mask, under any passphrase, and no
    error is thrown. *)
Theorem decryptFile_is_malleable (B D P : Buffer) (K : string) :
  decryptFile B K = Normal P ->
  decryptFile (take 16 B ++ xor_buffers (drop 16 B) D) K
  = Normal (xor_buffers P D).
Proof.
  intros Hdec.
  destruct (Nat.lt_ge_cases (length B) 16) as [Hlt|Hge].
  { rewrite decryptFile_short in Hdec by exact Hlt. discriminate Hdec. }
  rewrite decryptFile_long in Hdec by exact Hge. injection Hdec as <-.
  assert (length (take 16 B) = 16) as Hiv by (rewrite length_take; lia).
  rewrite decryptFile_long by (rewrite length_app; lia).
  rewrite take_app_length', drop_app_length' by (symmetry; exact Hiv).
  now rewrite ctr_xor_mask.
Qed.

Lemma ctr_xor_other_key (k k' iv : Buffer) (p : nat) (P : Buffer) :
  ctr_xor k' iv p (ctr_xor k iv p P) = P
  <-> forall i, i < length P ->
                keystream_byte k' iv (p + i) = keystream_byte k iv (p + i).
Proof.
  revert p. induction P as [|b P IH]; intros p; cbn [ctr_xor length].
  - split; [intros _ i Hi; lia|reflexivity].
  - split.
    + intros H. injection H as Hb HP.
      pose proof (proj1 (IH (S p)) HP) as HP'.
      apply (proj1 (byte_xor_undo _ _ _)) in Hb.
      intros [|i] Hi.
      * now rewrite Nat.add_0_r.
      * rewrite <- Nat.add_succ_comm. apply HP'. lia.
    + intros H. f_equal.
      * apply (proj2 (byte_xor_undo _ _ _)). specialize (H 0).
        rewrite Nat.add_0_r in H. apply H. lia.
      * apply (proj2 (IH (S p))). intros i Hi.
        rewrite Nat.add_succ_comm. apply H. lia.
Qed.

(** X26. A blob decrypted under another passphrase comes out as long as
    the content that was encrypted, and equal to it exactly when the key
    streams of the two derived keys, from the initialization vector
    drawn, agree on every octet position of the content. *)
Theorem decrypt_other_passphrase (env : Env) (w : World) (P : Buffer)
        (K K' : string) :
  let iv := random_octets env (ticks w) 16 in
  exists blob out,
    fst (run env (encryptFile P K) w) = Normal blob
    /\ decryptFile blob K' = Normal out
    /\ length out = length P
    /\ (out = P
        <-> forall i, i < length P ->
                      keystream_byte (scryptSync K' "salt" 32) iv i
                      = keystream_byte (scryptSync K "salt" 32) iv i).
Proof.
  intros iv. eexists _, _.
  rewrite encryptFile_run. fold iv. cbn [fst].
  assert (length iv = 16) as Hiv by apply random_octets_length.
  split; [reflexivity|]. split.
  - rewrite decryptFile_long by (rewrite length_app; lia).
    now rewrite take_app_length', drop_app_length'
      by (symmetry; exact Hiv).
  - split; [now rewrite !ctr_xor_length|].
    apply (ctr_xor_other_key _ _ iv 0 P).
Qed.

(** *** Upload, then delete *)

(** What an upload answered 200 has made of the two stores. *)
Lemma upload_success_stores (env : Env) (w w' : World) (req : UploadRequest)
      (resp : Response) :
  run env (upload_handler req) w = (Normal resp, w') ->
  statusCode resp = 200 ->
  exists obj Item,
    resp = upload_succeeded (uuid_at env (ticks w))
    /\ bucket w' = <["files/" +:+ uuid_at env (ticks w) := obj]> (bucket w)
    /\ FileMetadata w' = <[uuid_at env (ticks w) := Item]> (FileMetadata w).
Proof.
  destruct req as [[file|] key]; unfold upload_handler, encryptFile;
    cbn [req_file req_body_encryptionKey].
  - repeat run_eval_step. rewrite createCipheriv_derived. run_eval.
    all: intros Hrun Hst; injection Hrun as <- <-; try discriminate Hst.
    destruct Hstores as [-> ->]. world_cbn. cbn [fileId].
    eexists _, _. repeat split.
  - run_eval. intros Hrun Hst; injection Hrun as <- <-; discriminate Hst.
Qed.

(** X27. A delete undoes an upload: when an upload into stores that hold
    nothing under the identifier it draws is answered 200, and a delete
    of the identifier it returned is answered 200, the bucket and the
    file-metadata table are as they were before the upload. *)
Theorem upload_then_delete (env env2 : Env) (w w1 w2 : World)
        (req : UploadRequest) (resp resp2 : Response) :
  let id := uuid_at env (ticks w) in
  bucket w !! ("files/" +:+ id) = None ->
  FileMetadata w !! id = None ->
  run env (upload_handler req) w = (Normal resp, w1) ->
  statusCode resp = 200 ->
  run env2 (delete_handler id) w1 = (Normal resp2, w2) ->
  statusCode resp2 = 200 ->
  resp = upload_succeeded id /\ stores_eq w2 w.
Proof.
  intros id Hb Hm Hup Hst Hdel Hst2.
  destruct (upload_success_stores _ _ _ _ _ Hup Hst)
    as (obj & Item & Hresp & Hb1 & Hm1).
  destruct (delete_success _ _ _ _ _ Hdel Hst2) as (_ & _ & Hb2 & Hm2).
  split; [exact Hresp|]. unfold stores_eq.
  rewrite Hb2, Hm2, Hb1, Hm1. fold id.
  now rewrite !delete_insert_id.
Qed.

End Properties.

(* ===================================================================== *)
(** ** The model against published test vectors *)
(* ===================================================================== *)

(** FIPS 197, appendix C.3: the AES-256 block function. *)
Example aes256_fips197_C3 :
  AES.encrypt_block
    (hex "000102030405060708090a0b0c0d0e0f101112131415161718191a1b1c1d1e1f")
    (hex "00112233445566778899aabbccddeeff")
  = hex "8ea2b7ca516745bfeafc49904b496089".
Proof. vm_compute. reflexivity. Qed.

(** NIST SP 800-38A, F.5.5 (CTR-AES256.Encrypt), blocks 1 and 2, and the
    first five octets of block 3: the counter is incremented per block
    and a partial block takes the head of the key stream. *)
Example ctr_aes256_sp800_38a_F55 :
  ctr_xor
    (hex "603deb1015ca71be2b73aef0857d77811f352c073b6108d72d9810a30914dff4")
    (hex "f0f1f2f3f4f5f6f7f8f9fafbfcfdfeff") 0
    (hex "6bc1bee22e409f96e93d7e117393172aae2d8a571e03ac9c9eb76fac45af8e5130c81c46a3")
  = hex "601ec313775789a5b7a7f504bbf3d228f443e3ca4d62b59aca84e990cacaf5c52b0930daa2".
Proof. vm_compute. reflexivity. Qed.

(** The counter wraps around at 2^128. *)
Example ctr_counter_wraps :
  keystream_byte (hex "603deb1015ca71be2b73aef0857d77811f352c073b6108d72d9810a30914dff4")
                 (hex "ffffffffffffffffffffffffffffffff") 16
  = keystream_byte (hex "603deb1015ca71be2b73aef0857d77811f352c073b6108d72d9810a30914dff4")
                   (hex "00000000000000000000000000000000") 0.
Proof. vm_compute. reflexivity. Qed.

(* ===================================================================== *)
(** ** The server on concrete requests *)
(* ===================================================================== *)

Lemma sample_env_no_fault (t : nat) (c : Cmd) :
  is_store_access c = true -> fault sample_env t c = None.
Proof. reflexivity. Qed.

Lemma audit_outage_agrees (t : nat) (c : Cmd) :
  is_audit c = false -> audit_outage t c = fault sample_env t c.
Proof. intros Hc. unfold audit_outage. now rewrite Hc. Qed.

(** The specification's round trip: the octets 01 02 03 uploaded under
    ['secret'] and downloaded under ['secret'] come back. *)
Example upload_download_roundtrip :
  let up := run sample_env
                (post_api_upload (rt := sample_runtime)
                                 (sample_form (Some "secret")))
                empty_world in
  fst up = Normal (upload_succeeded "id-0")
  /\ fst (run sample_env
              (download_handler (rt := sample_runtime)
                 {| req_params_fileId := "id-0";
                    req_query_encryptionKey := Some "secret" |})
              (snd up))
     = Normal {| statusCode := 200;
                 headers :=
                   [("Content-Type", "application/pdf");
                    ("Content-Disposition",
                     "attachment; filename=" +:+ dquote +:+ "report.pdf"
                     +:+ dquote)];
                 payload := SentBuffer (hex "010203") |}.
Proof. vm_compute. split; reflexivity. Qed.

(** A download under another passphrase is answered 200 too, with other
    octets. *)
Example download_wrong_key :
  let up := run sample_env
                (post_api_upload (rt := sample_runtime)
                                 (sample_form (Some "secret")))
                empty_world in
  exists out,
    fst (run sample_env
             (download_handler (rt := sample_runtime)
                {| req_params_fileId := "id-0";
                   req_query_encryptionKey := Some "guess" |})
             (snd up))
    = Normal {| statusCode := 200;
                headers :=
                  [("Content-Type", "application/pdf");
                   ("Content-Disposition",
                    "attachment; filename=" +:+ dquote +:+ "report.pdf"
                    +:+ dquote)];
                payload := SentBuffer out |}
    /\ out <> hex "010203".
Proof. vm_compute. eexists. split; [reflexivity|discriminate]. Qed.

Lemma decryptFile_throws_iff_short_witness :
  decryptFile (rt := sample_runtime) (hex "0102030405") "secret"
  = Thrown ERR_CRYPTO_INVALID_IV
  /\ exists out,
      decryptFile (rt := sample_runtime)
                  (hex "000102030405060708090a0b0c0d0e0f1011") "guess"
      = Normal out.
Proof.
  split.
  - apply (proj1 (decryptFile_throws_iff_short (rt := sample_runtime)
                    (hex "0102030405") "secret")).
    vm_compute. lia.
  - apply (proj1 (proj2 (decryptFile_throws_iff_short (rt := sample_runtime)
                    (hex "000102030405060708090a0b0c0d0e0f1011") "guess"))).
    vm_compute. lia.
Defined.

Lemma codec_length_transparent_witness :
  (exists out,
      decryptFile (rt := sample_runtime)
                  (hex "000102030405060708090a0b0c0d0e0f1011") "secret"
      = Normal out
      /\ length out = 2)
  /\ decryptFile (rt := sample_runtime)
                 (hex "000102030405060708090a0b0c0d0e0f") "secret"
     = Normal [].
Proof.
  split.
  - apply (proj1 (proj2 (codec_length_transparent (rt := sample_runtime)
                           sample_env empty_world [] 
                           (hex "000102030405060708090a0b0c0d0e0f1011")
                           "secret"))).
    vm_compute. lia.
  - apply (proj2 (proj2 (codec_length_transparent (rt := sample_runtime)
                           sample_env empty_world []
                           (hex "000102030405060708090a0b0c0d0e0f")
                           "secret"))).
    reflexivity.
Defined.

Lemma unknown_fileId_not_found_witness :
  (fst (run sample_env
            (download_handler (rt := sample_runtime)
               {| req_params_fileId := "no-such-file";
                  req_query_encryptionKey := Some "secret" |})
            empty_world)
   = Normal file_not_found
   /\ fst (run sample_env (delete_handler (rt := sample_runtime) "no-such-file")
               empty_world)
      = Normal file_not_found)
  /\ stores_eq
       (snd (run sample_env
                 (download_handler (rt := sample_runtime)
                    {| req_params_fileId := "no-such-file";
                       req_query_encryptionKey := Some "secret" |})
                 empty_world))
       empty_world
  /\ stores_eq
       (snd (run sample_env
                 (delete_handler (rt := sample_runtime) "no-such-file")
                 empty_world))
       empty_world.
Proof.
  destruct (unknown_fileId_not_found (rt := sample_runtime) sample_env
              empty_world "no-such-file" "secret" eq_refl eq_refl)
    as (H404 & Hdl & Hdel).
  split; [exact (H404 eq_refl)|]. split; assumption.
Defined.

Lemma upload_missing_key_default_witness :
  exists w' obj,
    run sample_env
        (post_api_upload (rt := sample_runtime) (sample_form None))
        empty_world
    = (Normal (upload_succeeded "id-0"), w')
    /\ bucket w' !! "files/id-0" = Some obj
    /\ decryptFile (rt := sample_runtime) (Body obj) "default-password"
       = Normal (hex "010203").
Proof.
  destruct (proj2 (upload_missing_key_default (rt := sample_runtime)
                     (form_file (sample_form None)))
                  sample_env empty_world _ "report.pdf" eq_refl eq_refl
                  sample_env_no_fault)
    as (w' & obj & Hrun & Hobj & _ & Hdec).
  exists w', obj. split; [exact Hrun|]. split; [exact Hobj|exact Hdec].
Defined.

Lemma upload_empty_key_default_witness :
  exists w' obj,
    run sample_env
        (post_api_upload (rt := sample_runtime)
                         (sample_form (Some EmptyString)))
        empty_world
    = (Normal (upload_succeeded "id-0"), w')
    /\ bucket w' !! "files/id-0" = Some obj
    /\ decryptFile (rt := sample_runtime) (Body obj) "default-password"
       = Normal (hex "010203").
Proof.
  destruct (proj2 (proj2 (upload_empty_key_default (rt := sample_runtime)
                     (form_file (sample_form None))))
                  sample_env empty_world _ "report.pdf" eq_refl eq_refl
                  sample_env_no_fault)
    as (w' & obj & Hrun & Hobj & _ & Hdec).
  exists w', obj. split; [exact Hrun|]. split; [exact Hobj|exact Hdec].
Defined.

Lemma audit_failures_contained_witness :
  same_outcome
    (run sample_env
         (upload_handler (rt := sample_runtime)
                         (upload_single (sample_form (Some "secret"))))
         empty_world)
    (run (with_fault audit_outage sample_env)
         (upload_handler (rt := sample_runtime)
                         (upload_single (sample_form (Some "secret"))))
         empty_world).
Proof.
  exact (proj1 (proj2 (audit_failures_contained (rt := sample_runtime))
                      sample_env audit_outage empty_world
                      audit_outage_agrees)
               (upload_single (sample_form (Some "secret")))).
Defined.

Lemma upload_records_plaintext_size_witness :
  exists part rec obj,
    form_file (sample_form (Some "secret")) = Some part
    /\ upload_succeeded "id-0" = upload_succeeded (fileId rec)
    /\ size rec = 3
    /\ encrypted rec = true
    /\ length (Body obj) = 19.
Proof.
  destruct (upload_records_plaintext_size (rt := sample_runtime)
              sample_env empty_world
              (snd (run sample_env
                        (post_api_upload (rt := sample_runtime)
                                         (sample_form (Some "secret")))
                        empty_world))
              (sample_form (Some "secret")) (upload_succeeded "id-0"))
    as (part & rec & obj & Hpart & Hresp & _ & _ & Hsize & Henc & _ & Hlen & _).
  - vm_compute. reflexivity.
  - reflexivity.
  - exists part, rec, obj. cbn [sample_form form_file] in Hpart.
    injection Hpart as <-. repeat split; assumption.
Defined.

Lemma upload_blob_before_metadata_witness :
  let w' := snd (run (with_fault metadata_outage sample_env)
                     (upload_handler (rt := sample_runtime)
                        (upload_single (sample_form (Some "secret"))))
                     empty_world) in
  consistent_at "id-0" w' /\ blob_first empty_world w'.
Proof.
  intros w'.
  destruct (run_reachable (with_fault metadata_outage sample_env)
              (upload_handler (rt := sample_runtime)
                 (upload_single (sample_form (Some "secret"))))
              empty_world) as (p' & Hreach & _).
  refine (upload_blob_before_metadata (rt := sample_runtime)
            (with_fault metadata_outage sample_env) empty_world
            (upload_single (sample_form (Some "secret"))) "id-0" _
            (p', w') Hreach).
  intros [x Hx]. vm_compute in Hx. discriminate Hx.
Defined.

(** In that failed upload the blob is in the bucket and the table is
    empty: an orphaned blob, never a dangling record. *)
Example failed_upload_leaves_blob_only :
  let r := run (with_fault metadata_outage sample_env)
               (upload_handler (rt := sample_runtime)
                  (upload_single (sample_form (Some "secret"))))
               empty_world in
  (exists resp, fst r = Normal resp /\ statusCode resp = 500)
  /\ is_Some (bucket (snd r) !! "files/id-0")
  /\ FileMetadata (snd r) !! "id-0" = None.
Proof.
  vm_compute. split; [eexists; split; reflexivity|]. split; [eauto|reflexivity].
Qed.
(* ===================================================================== *)
(** ** Further properties on concrete requests *)
(* ===================================================================== *)

Lemma sample_env_accepts_audit (t : nat) (item : ActivityLogEntry) :
  fault sample_env t (Dynamo_put_ActivityLogs item) = None.
Proof. reflexivity. Qed.

Lemma logActivity_writes_are_independent_witness :
  let d := JObj [("count", JNum 0)] in
  let w' := snd (run sample_env
                     (logActivity (rt := sample_runtime) "LIST_FILES" d)
                     empty_world) in
  ActivityLogs w'
  = {[ "id-1" := audit_entry (H := sample_runtime) sample_env 0
                             "LIST_FILES" d ]}
  /\ length (log_stream w') = 1.
Proof.
  intros d w'.
  destruct (logActivity_writes_are_independent (rt := sample_runtime)
              sample_env empty_world "LIST_FILES" d)
    as (_ & Htable & _ & Hstream & _).
  split.
  - exact (Htable (fun _ => eq_refl)).
  - fold w' in Hstream. rewrite (Hstream (fun _ => eq_refl)). reflexivity.
Defined.


Lemma download_missing_blob_witness :
  fst (run sample_env
           (download_handler (rt := sample_runtime)
              {| req_params_fileId := "id-0";
                 req_query_encryptionKey := Some "secret" |})
           blobless_world)
  = Normal (server_error "Error downloading file" NoSuchKey).
Proof.
  edestruct (download_missing_blob (rt := sample_runtime) sample_env
               blobless_world "id-0" "secret") as (Hrun & _).
  - reflexivity.
  - reflexivity.
  - reflexivity.
  - exact sample_env_no_fault.
  - exact Hrun.
Defined.

Lemma download_truncated_blob_witness :
  fst (run sample_env
           (download_handler (rt := sample_runtime)
              {| req_params_fileId := "id-0";
                 req_query_encryptionKey := Some "secret" |})
           truncated_world)
  = Normal (server_error "Error downloading file" ERR_CRYPTO_INVALID_IV).
Proof.
  edestruct (download_truncated_blob (rt := sample_runtime) sample_env
               truncated_world "id-0" "secret") as (Hrun & _).
  - reflexivity.
  - reflexivity.
  - reflexivity.
  - vm_compute. lia.
  - exact sample_env_no_fault.
  - exact Hrun.
Defined.

Lemma download_logged_before_headers_witness :
  let r := run sample_env
               (download_handler (rt := strict_runtime)
                  {| req_params_fileId := "id-0";
                     req_query_encryptionKey := Some "secret" |})
               stored_world in
  fst r = Normal (server_error "Error downloading file"
                               (ERR_INVALID_CHAR "Content-Type"))
  /\ exists k entry, ActivityLogs (snd r) !! k = Some entry
                     /\ action entry = "FILE_DOWNLOAD".
Proof.
  intros r.
  edestruct (download_logged_before_headers (rt := strict_runtime)
               sample_env stored_world "id-0" "secret")
    as (Hrun & _ & Hentry).
  - reflexivity.
  - reflexivity.
  - reflexivity.
  - vm_compute. lia.
  - exact sample_env_no_fault.
  - reflexivity.
  - split; [exact Hrun|]. eexists _, _. split.
    + exact (Hentry (fun _ => eq_refl)).
    + reflexivity.
Defined.

Lemma download_falsy_key_rejected_witness :
  run sample_env
      (download_handler (rt := sample_runtime)
         {| req_params_fileId := "id-0";
            req_query_encryptionKey := Some EmptyString |})
      stored_world
  = (Normal key_required, stored_world).
Proof.
  exact (proj1 (download_falsy_key_rejected (rt := sample_runtime)
                  sample_env stored_world "id-0" (Some EmptyString)
                  eq_refl)).
Defined.


Lemma failed_upload_is_silent_witness :
  let w' := snd (run (with_fault metadata_outage sample_env)
                     (upload_handler (rt := sample_runtime)
                        (upload_single (sample_form (Some "secret"))))
                     empty_world) in
  FileMetadata w' = FileMetadata empty_world /\ audit_eq w' empty_world.
Proof.
  intros w'.
  destruct (failed_upload_is_silent (rt := sample_runtime)
              (with_fault metadata_outage sample_env) empty_world w'
              (upload_single (sample_form (Some "secret")))
              (server_error "Error uploading file" ServiceUnavailable))
    as (Hm & Ha & _).
  - vm_compute. reflexivity.
  - vm_compute. lia.
  - split; [exact Hm|exact Ha].
Defined.

Lemma upload_metadata_rejected_witness :
  let r := run (with_fault metadata_outage sample_env)
               (upload_handler (rt := sample_runtime)
                  {| req_file := Some (memoryStorage sample_part);
                     req_body_encryptionKey := Some "secret" |})
               empty_world in
  fst r = Normal (server_error "Error uploading file" ServiceUnavailable)
  /\ is_Some (bucket (snd r) !! "files/id-0")
  /\ FileMetadata (snd r) = FileMetadata empty_world.
Proof.
  intros r.
  destruct (upload_metadata_rejected (rt := sample_runtime)
              (with_fault metadata_outage sample_env) empty_world
              (memoryStorage sample_part) (Some "secret") "report.pdf"
              ServiceUnavailable)
    as (Hrun & (obj & Hobj & _) & Hm).
  - reflexivity.
  - reflexivity.
  - reflexivity.
  - split; [exact Hrun|]. split; [exists obj; exact Hobj|exact Hm].
Defined.

Lemma upload_call_sequence_witness :
  exists obj Item ev entry,
    calls stored_world
    = [S3_upload "files/id-0" obj; Dynamo_put_FileMetadata Item;
       CloudWatch_putLogEvents LOG_GROUP LOG_STREAM [ev];
       Dynamo_put_ActivityLogs entry].
Proof.
  destruct (upload_call_sequence (rt := sample_runtime) sample_env
              empty_world stored_world
              (upload_single (sample_form (Some "secret")))
              (upload_succeeded "id-0"))
    as (file & obj & _ & Hcalls).
  - vm_compute. reflexivity.
  - reflexivity.
  - eexists obj, _, _, _. exact Hcalls.
Defined.

Lemma upload_leaves_other_files_witness :
  bucket (snd (run sample_env
                   (upload_handler (rt := sample_runtime)
                      (upload_single (sample_form (Some "other"))))
                   stored_world))
    !! "files/id-0"
  = bucket stored_world !! "files/id-0".
Proof.
  apply (proj1 (upload_leaves_other_files (rt := sample_runtime) sample_env
                  stored_world
                  (upload_single (sample_form (Some "other"))))).
  vm_compute. discriminate.
Defined.

Lemma delete_call_sequence_witness :
  let w' := snd (run sample_env (delete_handler (rt := sample_runtime) "id-0")
                     stored_world) in
  bucket w' = delete "files/id-0" (bucket stored_world)
  /\ FileMetadata w' = delete "id-0" (FileMetadata stored_world)
  /\ length (calls w') = length (calls stored_world) + 5.
Proof.
  intros w'.
  destruct (delete_call_sequence (rt := sample_runtime) sample_env
              stored_world w' "id-0" delete_succeeded)
    as (Item & _ & _ & Hcalls & Hb & Hm).
  - vm_compute. reflexivity.
  - reflexivity.
  - split; [exact Hb|]. split; [exact Hm|].
    rewrite Hcalls, length_app. reflexivity.
Defined.

Lemma delete_then_not_found_witness :
  let w' := snd (run sample_env (delete_handler (rt := sample_runtime) "id-0")
                     stored_world) in
  fst (run sample_env
           (download_handler (rt := sample_runtime)
              {| req_params_fileId := "id-0";
                 req_query_encryptionKey := Some "secret" |}) w')
  = Normal file_not_found
  /\ fst (run sample_env (delete_handler (rt := sample_runtime) "id-0") w')
     = Normal file_not_found.
Proof.
  intros w'.
  apply (delete_then_not_found (rt := sample_runtime) sample_env sample_env
           stored_world w' "id-0" "secret" delete_succeeded).
  - vm_compute. reflexivity.
  - reflexivity.
  - reflexivity.
  - reflexivity.
Defined.

Lemma delete_partial_failure_witness :
  let r := run (with_fault record_delete_outage sample_env)
               (delete_handler (rt := sample_runtime) "id-0")
               stored_world in
  fst r = Normal (server_error "Error deleting file" ServiceUnavailable)
  /\ bucket (snd r) !! "files/id-0" = None
  /\ is_Some (FileMetadata (snd r) !! "id-0").
Proof.
  intros r.
  edestruct (delete_partial_failure (rt := sample_runtime)
               (with_fault record_delete_outage sample_env) stored_world
               "id-0")
    as (Hrun & Hb & Hm & _).
  - reflexivity.
  - reflexivity.
  - reflexivity.
  - reflexivity.
  - split; [exact Hrun|]. split; [exact Hb|]. eexists. exact Hm.
Defined.

Lemma failed_delete_keeps_record_witness :
  let w' := snd (run (with_fault record_delete_outage sample_env)
                     (delete_handler (rt := sample_runtime) "id-0")
                     stored_world) in
  FileMetadata w' = FileMetadata stored_world /\ audit_eq w' stored_world.
Proof.
  intros w'.
  destruct (failed_delete_keeps_record (rt := sample_runtime)
              (with_fault record_delete_outage sample_env) stored_world w'
              "id-0" (server_error "Error deleting file" ServiceUnavailable))
    as (Hm & Ha & _).
  - vm_compute. reflexivity.
  - vm_compute. lia.
  - split; [exact Hm|exact Ha].
Defined.

Lemma delete_blob_before_record_witness :
  let w' := snd (run (with_fault record_delete_outage sample_env)
                     (delete_handler (rt := sample_runtime) "id-0")
                     stored_world) in
  no_orphan_at "id-0" w' /\ record_last stored_world w'.
Proof.
  intros w'.
  destruct (run_reachable (with_fault record_delete_outage sample_env)
              (delete_handler (rt := sample_runtime) "id-0")
              stored_world) as (p' & Hreach & _).
  refine (delete_blob_before_record (rt := sample_runtime)
            (with_fault record_delete_outage sample_env) stored_world
            "id-0" "id-0" _ (p', w') Hreach).
  intros _. vm_compute. eauto.
Defined.

Lemma list_answers_the_table_witness :
  exists Items,
    fst (run sample_env (@list_handler sample_runtime) stored_world)
    = Normal (files_listed Items)
    /\ length Items = 1
    /\ (forall r, r ∈ Items
                  <-> exists id, FileMetadata stored_world !! id = Some r).
Proof.
  destruct (list_answers_the_table (rt := sample_runtime) sample_env
              stored_world
              (snd (run sample_env (@list_handler sample_runtime)
                        stored_world))
              (files_listed (snd <$> map_to_list (FileMetadata stored_world))))
    as (Items & Hresp & Hiff & Hlen & _).
  - vm_compute. reflexivity.
  - reflexivity.
  - exists Items. split; [|split; [|exact Hiff]].
    + rewrite <- Hresp. vm_compute. reflexivity.
    + rewrite Hlen. vm_compute. reflexivity.
Defined.

Lemma logged_then_listed_witness :
  let d := JObj [("count", JNum 0)] in
  let w1 := snd (run sample_env
                     (logActivity (rt := sample_runtime) "LIST_FILES" d)
                     empty_world) in
  exists Items,
    fst (run sample_env logs_handler w1)
    = Normal (logs_listed Items)
    /\ audit_entry (H := sample_runtime) sample_env 0 "LIST_FILES" d ∈ Items.
Proof.
  intros d w1.
  destruct (logged_then_listed (rt := sample_runtime) sample_env sample_env
              empty_world
              (snd (run sample_env logs_handler w1))
              "LIST_FILES" d
              (logs_listed
                 [audit_entry (H := sample_runtime) sample_env 0
                              "LIST_FILES" d]))
    as (Items & Hresp & Hin).
  - intros t. reflexivity.
  - vm_compute. reflexivity.
  - reflexivity.
  - exists Items. split; [|exact Hin].
    rewrite <- Hresp. vm_compute. reflexivity.
Defined.

Lemma upload_then_logs_witness :
  exists Items entry,
    fst (run sample_env logs_handler stored_world)
    = Normal (logs_listed Items)
    /\ entry ∈ Items
    /\ action entry = "FILE_UPLOAD"
    /\ details entry
       = @JSON_stringify sample_runtime
           (JObj [("fileId", JStr "id-0"); ("fileName", JStr "report.pdf");
                  ("size", JNum 3)]).
Proof.
  destruct (upload_then_logs (rt := sample_runtime) sample_env sample_env
              empty_world stored_world
              (snd (run sample_env logs_handler
                        stored_world))
              (upload_single (sample_form (Some "secret")))
              (upload_succeeded "id-0")
              (logs_listed (snd <$> map_to_list (ActivityLogs stored_world))))
    as (file & Items & entry & Hfile & Hresp & Hin & Hact & Hdet).
  - vm_compute. reflexivity.
  - reflexivity.
  - intros t item. reflexivity.
  - vm_compute. reflexivity.
  - reflexivity.
  - exists Items, entry. split; [|split; [exact Hin|split; [exact Hact|]]].
    + rewrite <- Hresp. vm_compute. reflexivity.
    + cbn in Hfile. injection Hfile as <-. exact Hdet.
Defined.

Lemma decryptFile_is_malleable_witness :
  let B := hex "000102030405060708090a0b0c0d0e0f1011" in
  exists P,
    decryptFile (rt := sample_runtime) B "secret" = Normal P
    /\ decryptFile (rt := sample_runtime)
                   (take 16 B ++ xor_buffers (drop 16 B) (hex "ff00"))
                   "secret"
       = Normal (xor_buffers P (hex "ff00")).
Proof.
  intros B.
  assert (exists P, decryptFile (rt := sample_runtime) B "secret" = Normal P)
    as [P HP] by (vm_compute; eauto).
  exists P. split; [exact HP|].
  exact (decryptFile_is_malleable (rt := sample_runtime) B (hex "ff00") P
           "secret" HP).
Defined.

Lemma decrypt_other_passphrase_witness :
  exists blob,
    fst (run sample_env
             (encryptFile (rt := sample_runtime) (hex "010203") "secret")
             empty_world)
    = Normal blob
    /\ decryptFile (rt := sample_runtime) blob "secret"
       = Normal (hex "010203").
Proof.
  destruct (decrypt_other_passphrase (rt := sample_runtime) sample_env
              empty_world (hex "010203") "secret" "secret")
    as (blob & out & Hrun & Hdec & _ & Hiff).
  exists blob. split; [exact Hrun|]. rewrite Hdec. f_equal.
  apply Hiff. intros i Hi. reflexivity.
Defined.

Lemma upload_then_delete_witness :
  stores_eq (snd (run sample_env
                      (delete_handler (rt := sample_runtime) "id-0")
                      stored_world))
            empty_world.
Proof.
  refine (proj2 (upload_then_delete (rt := sample_runtime) sample_env
                   sample_env empty_world stored_world _
                   (upload_single (sample_form (Some "secret")))
                   (upload_succeeded "id-0") delete_succeeded
                   _ _ _ _ _ _)).
  - reflexivity.
  - reflexivity.
  - vm_compute. reflexivity.
  - reflexivity.
  - vm_compute. reflexivity.
  - reflexivity.
Defined.
